(** * The DPoR core of cpchain: validator FSM, committee election, RNode funding

    A shallow embedding of
    - [consensus/dpor/backend/pbft_fsm.go]  (module [Backend]),
    - [consensus/dpor/election/elect.go]    (module [Election]),
    - [admission/admission.go], the funding path (module [Admission]) and
      the campaign path (module [Campaigning]),
    followed by the properties established for them.

    Conventions.  A Go [uint64]/[int64] is a [Z] with its wrap-around written
    out where the code can reach it.  A Go pointer that may be nil is an
    [option]; dereferencing [None] is the run-time panic.  A Go map is a
    [gmap].  A method of [*DporSm] is a function in the monad [M], which
    threads the machine and can panic.  The two [sync.RWMutex] fields are not
    part of the machine state: [M] gives what a method computes when its lock
    operations are granted, and module [DataLock] records, separately, the
    lock operations each method issues on [sm.lock]. *)

From Stdlib Require Import ZArith List Lia Bool.
From stdpp Require Import gmap list fin_maps.

Local Open Scope Z_scope.

(** ** Machine integers *)

Definition two64 : Z := 2 ^ 64.
Definition u64 (x : Z) : Z := x mod two64.

(** Two's complement wrap-around of a 64-bit signed result. *)
Definition i64 (x : Z) : Z := (x + 2 ^ 63) mod two64 - 2 ^ 63.

(** ** What a call can do besides returning *)

Inductive panicKind :=
| nilDereference      (* invalid memory address or nil pointer dereference *)
| indexOutOfRange     (* index or slice bound out of range *)
| typeAssertion       (* interface conversion *)
| invalidArgument.    (* an explicit panic(...) of a callee *)

Inductive outcome (A : Type) : Type :=
| Ret (a : A)             (* normal return *)
| Panic (p : panicKind)   (* run-time panic *)
| Diverge.                (* the loop was still running when the fuel ran out *)
Arguments Ret {A} a.
Arguments Panic {A} p.
Arguments Diverge {A}.

Module Backend.

(** *** [common] and [types] *)

Definition Address := N.          (* common.Address, 20 bytes *)
Definition Hash := N.             (* common.Hash, 32 bytes *)
Definition DporSignature := N.    (* types.DporSignature, 65 bytes *)

(** [DporSignature.IsEmpty]: all 65 bytes are zero. *)
Definition IsEmpty (s : DporSignature) : bool := (s =? 0)%N.

Record DporSnap := mkDporSnap {
  Validators : list Address;
  Sigs : list DporSignature
}.

Record Header := mkHeader {
  Number : Z;          (* h.Number.Uint64() *)
  Dpor : DporSnap;
  Rest : N             (* the fields the FSM never looks at *)
}.

Record Block := mkBlock {
  header : Header;
  body : N
}.

(** *** Enumerations of pbft_fsm.go *)

Inductive action := noAction | broadcastMsgAction | insertBlockAction
                  | broadcastAndInsertBlockAction.

Inductive dataType := noType | headerType | blockType | impeachBlockType
                    | otherType (v : N).   (* any other uint8 value *)

Inductive msgCode := noMsgCode | preprepareMsgCode | prepareMsgCode
                   | commitMsgCode | validateMsgCode | impeachPreprepareMsgCode
                   | impeachPrepareMsgCode | impeachCommitMsgCode
                   | impeachValidateMsgCode
                   | otherMsgCode (v : N). (* any other uint8 value *)

(** Modelled from the spec: [consensus.State] is declared outside src/; the
    spec (section 3, FSM State Variable) gives its five values. *)
Inductive State := Idle | Preprepared | Prepared | ImpeachPreprepared
                 | ImpeachPrepared.

Inductive error :=
| errBlockTooOld
| errFsmWrongDataType
| errFsmFaultyBlock
| errFsmWrongIdleIpunt
| errFsmWrongPrepreparedInput
| errFsmWrongPreparedInput
| errFsmWrongImpeachPrepreparedInput
| errFsmWrongImpeachPreparedInput
| errBlockNotExist
| ErrInvalidSigners                 (* consensus.ErrInvalidSigners *)
| errService (code : N).            (* an error made by the chain service *)

(** The input-class errors of the transition function. *)
Definition input_class (e : error) : bool :=
  match e with
  | errFsmWrongDataType | errFsmWrongIdleIpunt | errFsmWrongPrepreparedInput
  | errFsmWrongPreparedInput | errFsmWrongImpeachPrepreparedInput
  | errFsmWrongImpeachPreparedInput => true
  | _ => false
  end.

(** *** Signature state: address -> blockSigItem -> (hash, sig) *)

Record blockSigItem := mkItem {
  hash : Hash;
  sig : DporSignature
}.

Definition cacheSize : nat := 10.

(** Calls into the chain service that change something outside the machine. *)
Inductive serviceCall :=
| UpdatePrepareSigsCache (v : Address) (h : Hash) (s : DporSignature)
| UpdateFinalSigsCache (v : Address) (h : Hash) (s : DporSignature)
| SignHeaderCall (h : Header) (phase : State).

(** Modelled from the spec: the block cache is an [lru.ARCCache] of an outside
    library; the spec (sections 3 and 9) asks for a bounded map from block hash
    to block of capacity 10 with some eviction.  Newest entry first. *)
Definition blockCache := list (Hash * Block).

Definition cacheGet (c : blockCache) (k : Hash) : option Block :=
  snd <$> List.find (fun kv => (fst kv =? k)%N) c.

Definition cacheAdd (k : Hash) (b : Block) (c : blockCache) : blockCache :=
  take cacheSize ((k, b) :: List.filter (fun kv => negb (fst kv =? k)%N) c).

(** The cached value is a pointer: writing through it changes the entry. *)
Definition cacheStore (k : Hash) (b : Block) (c : blockCache) : blockCache :=
  List.map (fun kv => if (fst kv =? k)%N then (k, b) else kv) c.

Record DporSm := mkDporSm {
  state : State;
  prepareSigState : gmap Address blockSigItem;
  commitSigState : gmap Address blockSigItem;
  f : Z;                         (* uint64 *)
  bcache : blockCache;
  lastHeight : Z;                (* uint64 *)
  serviceLog : list serviceCall  (* effects on the service, oldest first *)
}.

(** A Go [interface{}] as the FSM uses it: nil, a [*types.Header] or a
    [*types.Block]; the pointer inside can itself be nil. *)
Inductive iface :=
| nilIface
| ptrHeader (h : option Header)
| ptrBlock (b : option Block).

(** What [fsm] returns: output, action, output type, message code, next state
    and error. *)
Record fsmResult := mkResult {
  output : iface;
  act : action;
  dtype : dataType;
  outMsg : msgCode;
  next : State;
  err : option error
}.

(** The chain service, as the answers it gives. *)
Record DporService := mkService {
  ValidateBlock : option Block -> option error;
  EcrecoverSigs : Header -> State ->
                  list Address * list DporSignature * option error;
  ValidatorsOf : Z -> list Address;
  SignHeader : Header -> State -> Header;
  CreateImpeachBlock : option Block * option error
}.

Definition NewDporSm (f0 : Z) : DporSm :=
  {| state := Idle; prepareSigState := ∅; commitSigState := ∅; f := f0;
     bcache := []; lastHeight := 0; serviceLog := [] |}.

(** *** The monad of methods on [*DporSm] *)

Definition M (A : Type) : Type := DporSm -> outcome (A * DporSm).

Definition ret {A} (a : A) : M A := fun sm => Ret (a, sm).
Definition panic {A} (p : panicKind) : M A := fun _ => Panic p.
Definition bind {A B} (m : M A) (k : A -> M B) : M B :=
  fun sm => match m sm with
            | Ret (a, sm') => k a sm'
            | Panic p => Panic p
            | Diverge => Diverge
            end.
Definition get : M DporSm := fun sm => Ret (sm, sm).
Definition modify (g : DporSm -> DporSm) : M unit := fun sm => Ret (tt, g sm).
(** Dereference of a pointer. *)
Definition deref {A} (p : option A) : M A :=
  match p with Some a => ret a | None => panic nilDereference end.

Declare Scope fsm_scope.
Delimit Scope fsm_scope with fsm.
Notation "x <- m ;; k" := (bind m (fun x => k))
  (at level 100, m at next level, right associativity) : fsm_scope.
Notation "m ;;; k" := (bind m (fun _ => k))
  (at level 100, right associativity) : fsm_scope.
Local Open Scope fsm_scope.

Definition set_prepareSigState (m : gmap Address blockSigItem) (sm : DporSm) :=
  {| state := state sm; prepareSigState := m;
     commitSigState := commitSigState sm; f := f sm; bcache := bcache sm;
     lastHeight := lastHeight sm; serviceLog := serviceLog sm |}.
Definition set_commitSigState (m : gmap Address blockSigItem) (sm : DporSm) :=
  {| state := state sm; prepareSigState := prepareSigState sm;
     commitSigState := m; f := f sm; bcache := bcache sm;
     lastHeight := lastHeight sm; serviceLog := serviceLog sm |}.
Definition set_bcache (c : blockCache) (sm : DporSm) : DporSm :=
  {| state := state sm; prepareSigState := prepareSigState sm;
     commitSigState := commitSigState sm; f := f sm; bcache := c;
     lastHeight := lastHeight sm; serviceLog := serviceLog sm |}.
Definition set_lastHeight (h : Z) (sm : DporSm) : DporSm :=
  {| state := state sm; prepareSigState := prepareSigState sm;
     commitSigState := commitSigState sm; f := f sm; bcache := bcache sm;
     lastHeight := h; serviceLog := serviceLog sm |}.
Definition log_call (c : serviceCall) (sm : DporSm) : DporSm :=
  {| state := state sm; prepareSigState := prepareSigState sm;
     commitSigState := commitSigState sm; f := f sm; bcache := bcache sm;
     lastHeight := lastHeight sm; serviceLog := serviceLog sm ++ [c] |}.

Section Machine.

(** [Header.Hash]: the digest of the header without its signature slots. *)
Variable HeaderHash : Header -> Hash.
Variable service : DporService.

Definition BlockHash (b : Block) : Hash := HeaderHash (header b).

(** refreshWhenNewerHeight resets a signature state for a renewed block
    number (height). *)
Definition refreshWhenNewerHeight (height : Z) : M unit :=
  sm <- get ;;
  if lastHeight sm <? height then
    modify (set_lastHeight height) ;;;
    modify (set_prepareSigState ∅) ;;;
    modify (set_commitSigState ∅)
  else ret tt.

(** verifyBlock is a func to verify whether the block is legal. *)
Definition verifyBlock (block : option Block) : M bool :=
  ret (match ValidateBlock service block with None => true | Some _ => false end).

(** The counting loop shared by the two certificates.  [count] is a uint64;
    a Go map holds fewer than 2^63 entries, so [count++] never wraps. *)
Definition countSigs (st : gmap Address blockSigItem) (h : Hash) : Z :=
  map_fold (fun _ item count =>
              if (hash item =? h)%N then count + 1 else count) 0 st.

(** commitCertificate is true if the validator has collected 2f+1 commit
    messages. *)
Definition commitCertificate (h : option Header) : M bool :=
  hd <- deref h ;;
  sm <- get ;;
  ret (u64 (2 * f sm + 1) <=? countSigs (commitSigState sm) (HeaderHash hd)).

(** prepareCertificate is true if the validator has collected 2f+1 prepare
    messages. *)
Definition prepareCertificate (h : option Header) : M bool :=
  hd <- deref h ;;
  sm <- get ;;
  ret (u64 (2 * f sm + 1) <=? countSigs (prepareSigState sm) (HeaderHash hd)).

(** The signers check of the two sig-plus operations: every signer has to be
    in the validator committee. *)
Definition signersAreValidators (signers validators : list Address) : bool :=
  forallb (fun s => existsb (fun v => (s =? v)%N) validators) signers.

(** The merge loop of the two sig-plus operations, from index [i] on:
    [st[s] = &blockSigItem{hash, sigs[i]}]; [None] when [sigs[i]] is out of
    range. *)
Fixpoint mergeSigs (h : Hash) (signers : list Address)
    (sigs : list DporSignature) (i : nat) (st : gmap Address blockSigItem)
    : option (gmap Address blockSigItem) :=
  match signers with
  | [] => Some st
  | s :: rest =>
      match sigs !! i with
      | Some sg => mergeSigs h rest sigs (S i) (<[s := mkItem h sg]> st)
      | None => None
      end
  end.

(** commitMsgPlus merges the signatures of commit messages. *)
Definition commitMsgPlus (h : option Header) : M (option error) :=
  hd <- deref h ;;
  refreshWhenNewerHeight (Number hd) ;;;
  let '(signers, sigs, err) := EcrecoverSigs service hd Prepared in
  match err with
  | Some e => ret (Some e)
  | None =>
      let validators := ValidatorsOf service (Number hd) in
      if negb (signersAreValidators signers validators)
      then ret (Some ErrInvalidSigners)
      else
        sm <- get ;;
        match mergeSigs (HeaderHash hd) signers sigs 0 (commitSigState sm) with
        | Some st => modify (set_commitSigState st) ;;; ret None
        | None => panic indexOutOfRange
        end
  end.

(** prepareMsgPlus: add one to the counter of prepare messages. *)
Definition prepareMsgPlus (h : option Header) : M (option error) :=
  hd <- deref h ;;
  refreshWhenNewerHeight (Number hd) ;;;
  let '(signers, sigs, err) := EcrecoverSigs service hd Prepared in
  match err with
  | Some e => ret (Some e)
  | None =>
      let validators := ValidatorsOf service (Number hd) in
      if negb (signersAreValidators signers validators)
      then ret (Some ErrInvalidSigners)
      else
        sm <- get ;;
        match mergeSigs (HeaderHash hd) signers sigs 0 (prepareSigState sm) with
        | Some st => modify (set_prepareSigState st) ;;; ret None
        | None => panic indexOutOfRange
        end
  end.

(** The make-up loop of composeValidateMsg over [validators] from index [i]
    on, acting on the signature slots of the cached block. *)
Fixpoint makeUpSigs (h : Hash) (commit : gmap Address blockSigItem)
    (validators : list Address) (i : nat) (slots : list DporSignature)
    : outcome (list DporSignature) :=
  match validators with
  | [] => Ret slots
  | v :: rest =>
      match slots !! i with
      | None => Panic indexOutOfRange
      | Some s =>
          if IsEmpty s then
            match commit !! v with
            | None => Panic nilDereference          (* state.hash, state == nil *)
            | Some st =>
                if (hash st =? h)%N
                then makeUpSigs h commit rest (S i) (<[i := sig st]> slots)
                else makeUpSigs h commit rest (S i) slots
            end
          else makeUpSigs h commit rest (S i) slots
      end
  end.

Definition withSigs (b : Block) (slots : list DporSignature) : Block :=
  {| header := {| Number := Number (header b);
                  Dpor := {| Validators := Validators (Dpor (header b));
                             Sigs := slots |};
                  Rest := Rest (header b) |};
     body := body b |}.

(** composeValidateMsg is to return the validate message, which is the
    proposed block or impeach block. *)
Definition composeValidateMsg (h : option Header)
    : M (option Block * option error) :=
  hd <- deref h ;;
  sm <- get ;;
  let hash := HeaderHash hd in
  match cacheGet (bcache sm) hash with
  | None => ret (None, Some errBlockNotExist)
  | Some theBlock =>
      match makeUpSigs hash (commitSigState sm) (Validators (Dpor hd)) 0
                       (Sigs (Dpor (header theBlock))) with
      | Ret slots =>
          let theBlock' := withSigs theBlock slots in
          modify (set_bcache (cacheStore hash theBlock' (bcache sm))) ;;;
          ret (Some theBlock', None)
      | Panic p => panic p
      | Diverge => fun _ => Diverge
      end
  end.

(** The [range] loops that forward a signature state to the service.  Go
    leaves the order of a map iteration open; the log takes [map_to_list]'s. *)
Definition forwardSigs (call : Address -> Hash -> DporSignature -> serviceCall)
    (st : gmap Address blockSigItem) : M unit :=
  fun sm => Ret (tt, foldl (fun acc kv => log_call (call kv.1 (hash kv.2) (sig kv.2)) acc)
                           sm (map_to_list st)).

Definition composeCommitMsg (h : option Header)
    : M (option Header * option error) :=
  hd <- deref h ;;
  sm <- get ;;
  if Number hd <? lastHeight sm then ret (None, Some errBlockTooOld)
  else
    refreshWhenNewerHeight (Number hd) ;;;
    sm1 <- get ;;
    forwardSigs UpdateFinalSigsCache (commitSigState sm1) ;;;
    modify (log_call (SignHeaderCall hd Prepared)) ;;;
    ret (Some (SignHeader service hd Prepared), None).

Definition withHeader (b : Block) (hd : Header) : Block :=
  {| header := hd; body := body b |}.

(** It is used to compose prepare message given a newly proposed block. *)
Definition composePrepareMsg (b : option Block)
    : M (option Header * option error) :=
  blk <- deref b ;;
  sm <- get ;;
  if Number (header blk) <=? lastHeight sm then ret (None, Some errBlockTooOld)
  else
    refreshWhenNewerHeight (Number (header blk)) ;;;
    modify (fun s => set_bcache (cacheAdd (BlockHash blk) blk (bcache s)) s) ;;;
    sm1 <- get ;;
    forwardSigs UpdatePrepareSigsCache (prepareSigState sm1) ;;;
    modify (log_call (SignHeaderCall (header blk) Preprepared)) ;;;
    let signed := SignHeader service (header blk) Preprepared in
    (* the cache holds the same *types.Block that was just signed *)
    modify (fun s => set_bcache
              (cacheStore (BlockHash blk) (withHeader blk signed) (bcache s)) s) ;;;
    ret (Some signed, None).

(** It is used to propose an impeach block. *)
Definition proposeImpeachBlock : M (option Block) :=
  let '(b, e) := CreateImpeachBlock service in
  match e with
  | Some _ => ret None
  | None =>
      blk <- deref b ;;
      modify (log_call (SignHeaderCall (header blk) Preprepared)) ;;;
      ret (Some (withHeader blk (SignHeader service (header blk) Preprepared)))
  end.

Definition impeachCommitCertificate (h : option Header) : M bool :=
  commitCertificate h.

Definition composeImpeachValidateMsg (h : option Header)
    : M (option Block * option error) :=
  composeValidateMsg h.

Definition impeachCommitMsgPlus (h : option Header) : M (option error) :=
  commitMsgPlus h.

Definition impeachPrepareCertificate (h : option Header) : M bool :=
  prepareCertificate h.

Definition impeachPrepareMsgPlus (h : option Header) : M (option error) :=
  prepareMsgPlus h.

(** The two type assertions at the head of [fsm]. *)
Definition assertHeader (input : iface) : M (option Header) :=
  match input with ptrHeader h => ret h | _ => panic typeAssertion end.
Definition assertBlock (input : iface) : M (option Block) :=
  match input with ptrBlock b => ret b | _ => panic typeAssertion end.

Definition fsm (input : iface) (inputType : dataType) (msg : msgCode)
    (state : State) : M fsmResult :=
  let fallThrough (e : option error) :=
    ret (mkResult nilIface noAction noType noMsgCode state e) in
  let dispatch (inputHeader : option Header) (inputBlock : option Block) :=
    match state with
    (* The case of consensus.Idle state *)
    | Idle =>
        match msg with
        | validateMsgCode =>
            ret (mkResult (ptrBlock inputBlock) insertBlockAction blockType noMsgCode Idle None)
        | commitMsgCode =>
            cert <- commitCertificate inputHeader ;;
            if cert then
              r <- composeValidateMsg inputHeader ;;
              match r.2 with
              | Some e => ret (mkResult nilIface noAction noType noMsgCode Idle (Some e))
              | None => ret (mkResult (ptrBlock r.1) broadcastAndInsertBlockAction blockType validateMsgCode Idle None)
              end
            else
              e <- commitMsgPlus inputHeader ;;
              match e with
              | Some e => ret (mkResult nilIface noAction noType noMsgCode Idle (Some e))
              | None => ret (mkResult input noAction noType noMsgCode Idle None)
              end
        | prepareMsgCode =>
            cert <- prepareCertificate inputHeader ;;
            if cert then
              r <- composeCommitMsg inputHeader ;;
              match r.2 with
              | Some e => ret (mkResult nilIface noAction noType noMsgCode Idle (Some e))
              | None => ret (mkResult (ptrHeader r.1) broadcastMsgAction headerType commitMsgCode Prepared None)
              end
            else
              e <- prepareMsgPlus inputHeader ;;
              match e with
              | Some e => ret (mkResult nilIface noAction noType noMsgCode Idle (Some e))
              | None => ret (mkResult input noAction noType noMsgCode Idle None)
              end
        | preprepareMsgCode =>
            ok <- verifyBlock inputBlock ;;
            if ok then
              r <- composePrepareMsg inputBlock ;;
              match r.2 with
              | Some e => ret (mkResult nilIface noAction noType noMsgCode Idle (Some e))
              | None => ret (mkResult (ptrHeader r.1) broadcastMsgAction headerType prepareMsgCode Preprepared None)
              end
            else
              b <- proposeImpeachBlock ;;
              ret (mkResult (ptrBlock b) insertBlockAction blockType impeachPrepareMsgCode ImpeachPreprepared (Some errFsmFaultyBlock))
        | impeachValidateMsgCode =>
            ret (mkResult (ptrBlock inputBlock) insertBlockAction blockType noMsgCode Idle None)
        | impeachCommitMsgCode =>
            cert <- impeachCommitCertificate inputHeader ;;
            if cert then
              r <- composeImpeachValidateMsg inputHeader ;;
              match r.2 with
              | Some e => ret (mkResult nilIface noAction noType noMsgCode Idle (Some e))
              | None => ret (mkResult (ptrBlock r.1) broadcastAndInsertBlockAction blockType impeachValidateMsgCode Idle None)
              end
            else
              e <- impeachCommitMsgPlus inputHeader ;;
              match e with
              | Some e => ret (mkResult nilIface noAction noType noMsgCode Idle (Some e))
              | None => ret (mkResult (ptrHeader inputHeader) noAction noType noMsgCode Idle None)
              end
        | impeachPrepareMsgCode =>
            cert <- impeachPrepareCertificate inputHeader ;;
            if cert then
              ret (mkResult (ptrHeader inputHeader) broadcastMsgAction headerType impeachCommitMsgCode ImpeachPrepared None)
            else
              e <- impeachPrepareMsgPlus inputHeader ;;
              match e with
              | Some e => ret (mkResult nilIface noAction noType noMsgCode Idle (Some e))
              | None => ret (mkResult input noAction noType noMsgCode Idle None)
              end
        | impeachPreprepareMsgCode =>
            b <- proposeImpeachBlock ;;
            ret (mkResult (ptrBlock b) broadcastMsgAction blockType impeachPrepareMsgCode ImpeachPreprepared None)
        | _ => fallThrough (Some errFsmWrongIdleIpunt)
        end

    (* The case of pre-prepared state *)
    | Preprepared =>
        match msg with
        | validateMsgCode =>
            ret (mkResult (ptrBlock inputBlock) insertBlockAction blockType noMsgCode Idle None)
        | commitMsgCode =>
            cert <- commitCertificate inputHeader ;;
            if cert then
              r <- composeValidateMsg inputHeader ;;
              match r.2 with
              | Some e => ret (mkResult nilIface noAction noType noMsgCode Idle (Some e))
              | None => ret (mkResult (ptrBlock r.1) broadcastAndInsertBlockAction blockType validateMsgCode Idle None)
              end
            else
              e <- commitMsgPlus inputHeader ;;
              match e with
              | Some e => ret (mkResult nilIface noAction noType noMsgCode Idle (Some e))
              | None => ret (mkResult input noAction noType noMsgCode Preprepared None)
              end
        | prepareMsgCode =>
            cert <- prepareCertificate inputHeader ;;
            if cert then
              r <- composeCommitMsg inputHeader ;;
              match r.2 with
              | Some e => ret (mkResult nilIface noAction noType noMsgCode Preprepared (Some e))
              | None => ret (mkResult (ptrHeader r.1) broadcastMsgAction headerType commitMsgCode Prepared None)
              end
            else
              e <- prepareMsgPlus inputHeader ;;
              match e with
              | Some e => ret (mkResult nilIface noAction noType noMsgCode Preprepared (Some e))
              | None => ret (mkResult input noAction noType noMsgCode Preprepared None)
              end
        | impeachValidateMsgCode =>
            ret (mkResult (ptrBlock inputBlock) insertBlockAction blockType noMsgCode Idle None)
        | impeachCommitMsgCode =>
            cert <- impeachCommitCertificate inputHeader ;;
            if cert then
              r <- composeImpeachValidateMsg inputHeader ;;
              match r.2 with
              | Some e => ret (mkResult nilIface noAction noType noMsgCode Preprepared (Some e))
              | None => ret (mkResult (ptrBlock r.1) broadcastAndInsertBlockAction blockType impeachValidateMsgCode Idle None)
              end
            else
              e <- commitMsgPlus inputHeader ;;
              match e with
              | Some e => ret (mkResult nilIface noAction noType noMsgCode Preprepared (Some e))
              | None => ret (mkResult input noAction noType noMsgCode Idle None)
              end
        | impeachPrepareMsgCode =>
            cert <- impeachPrepareCertificate inputHeader ;;
            if cert then
              ret (mkResult (ptrHeader inputHeader) broadcastMsgAction headerType impeachCommitMsgCode ImpeachPrepared None)
            else
              e <- impeachPrepareMsgPlus inputHeader ;;
              match e with
              | Some e => ret (mkResult nilIface noAction noType noMsgCode Preprepared (Some e))
              | None => ret (mkResult input noAction noType noMsgCode Preprepared None)
              end
        | impeachPreprepareMsgCode =>
            b <- proposeImpeachBlock ;;
            ret (mkResult (ptrBlock b) broadcastMsgAction blockType impeachPrepareMsgCode ImpeachPreprepared None)
        | _ => fallThrough (Some errFsmWrongPrepreparedInput)
        end

    (* The case of consensus.Prepared stage *)
    | Prepared =>
        match msg with
        | validateMsgCode =>
            ret (mkResult (ptrBlock inputBlock) insertBlockAction blockType noMsgCode Idle None)
        | commitMsgCode =>
            cert <- commitCertificate inputHeader ;;
            if cert then
              r <- composeValidateMsg inputHeader ;;
              match r.2 with
              | Some e => ret (mkResult nilIface noAction noType noMsgCode Prepared (Some e))
              | None => ret (mkResult (ptrBlock r.1) broadcastAndInsertBlockAction blockType validateMsgCode Idle None)
              end
            else
              e <- commitMsgPlus inputHeader ;;
              match e with
              | Some e => ret (mkResult nilIface noAction noType noMsgCode Prepared (Some e))
              | None => ret (mkResult input noAction noType noMsgCode Preprepared None)
              end
        | impeachValidateMsgCode =>
            ret (mkResult (ptrBlock inputBlock) insertBlockAction blockType noMsgCode Idle None)
        | impeachCommitMsgCode =>
            cert <- impeachCommitCertificate inputHeader ;;
            if cert then
              r <- composeImpeachValidateMsg inputHeader ;;
              match r.2 with
              | Some e => ret (mkResult nilIface noAction noType noMsgCode Prepared (Some e))
              | None => ret (mkResult (ptrBlock r.1) broadcastAndInsertBlockAction blockType impeachValidateMsgCode Idle None)
              end
            else
              e <- impeachCommitMsgPlus inputHeader ;;
              match e with
              | Some e => ret (mkResult nilIface noAction noType noMsgCode Prepared (Some e))
              | None => ret (mkResult input noAction noType noMsgCode Prepared None)
              end
        | impeachPrepareMsgCode =>
            cert <- impeachPrepareCertificate inputHeader ;;
            if cert then
              ret (mkResult (ptrHeader inputHeader) broadcastMsgAction headerType impeachCommitMsgCode ImpeachPrepared None)
            else
              e <- impeachPrepareMsgPlus inputHeader ;;
              match e with
              | Some e => ret (mkResult nilIface noAction noType noMsgCode Prepared (Some e))
              | None => ret (mkResult input noAction noType noMsgCode Prepared None)
              end
        | impeachPreprepareMsgCode =>
            b <- proposeImpeachBlock ;;
            ret (mkResult (ptrBlock b) broadcastMsgAction blockType impeachPrepareMsgCode ImpeachPreprepared None)
        | _ => fallThrough (Some errFsmWrongPreparedInput)
        end

    | ImpeachPreprepared =>
        match msg with
        | impeachValidateMsgCode =>
            ret (mkResult (ptrBlock inputBlock) insertBlockAction blockType noMsgCode Idle None)
        | impeachCommitMsgCode =>
            cert <- impeachCommitCertificate inputHeader ;;
            if cert then
              r <- composeImpeachValidateMsg inputHeader ;;
              match r.2 with
              | Some e => ret (mkResult nilIface noAction noType noMsgCode ImpeachPreprepared (Some e))
              | None => ret (mkResult (ptrBlock r.1) broadcastAndInsertBlockAction blockType impeachValidateMsgCode Idle None)
              end
            else
              e <- impeachCommitMsgPlus inputHeader ;;
              match e with
              | Some e => ret (mkResult nilIface noAction noType noMsgCode ImpeachPreprepared (Some e))
              | None => ret (mkResult input noAction noType noMsgCode ImpeachPreprepared None)
              end
        | impeachPrepareMsgCode =>
            cert <- impeachPrepareCertificate inputHeader ;;
            if cert then
              ret (mkResult (ptrHeader inputHeader) broadcastMsgAction headerType impeachCommitMsgCode ImpeachPrepared None)
            else
              e <- impeachPrepareMsgPlus inputHeader ;;
              match e with
              | Some e => ret (mkResult nilIface noAction noType noMsgCode ImpeachPreprepared (Some e))
              | None => ret (mkResult input noAction noType noMsgCode ImpeachPreprepared None)
              end
        | _ => fallThrough (Some errFsmWrongImpeachPrepreparedInput)
        end

    | ImpeachPrepared =>
        match msg with
        | impeachValidateMsgCode =>
            ret (mkResult (ptrBlock inputBlock) insertBlockAction blockType noMsgCode Idle None)
        | impeachCommitMsgCode =>
            cert <- impeachCommitCertificate inputHeader ;;
            if cert then
              r <- composeImpeachValidateMsg inputHeader ;;
              match r.2 with
              | Some e => ret (mkResult nilIface noAction noType noMsgCode ImpeachPrepared (Some e))
              | None => ret (mkResult (ptrBlock r.1) broadcastAndInsertBlockAction blockType impeachValidateMsgCode Idle None)
              end
            else
              e <- impeachCommitMsgPlus inputHeader ;;
              match e with
              | Some e => ret (mkResult nilIface noAction noType noMsgCode ImpeachPrepared (Some e))
              | None => ret (mkResult input noAction noType noMsgCode ImpeachPrepared None)
              end
        | _ => fallThrough (Some errFsmWrongPreparedInput)
        end
    end in
  (* Determine the input is a header or a block by inputType *)
  match inputType with
  | headerType => h <- assertHeader input ;; dispatch h None
  | blockType => b <- assertBlock input ;; dispatch None b
  | impeachBlockType => b <- assertBlock input ;; dispatch None b
  | _ => ret (mkResult nilIface noAction noType noMsgCode Idle (Some errFsmWrongDataType))
  end.


End Machine.

End Backend.

Module Election.

Definition Address := N.          (* common.Address *)

(** Modelled from the spec: [rpt.Rpt] and [rpt.RptList] are declared outside
    src/; the spec (section 3, Reputation Entry) gives a pair of an address and
    a signed 64-bit score, in an ordered sequence. *)
Record Rpt := mkRpt {
  Addr : Address;
  Score : Z                       (* int64 *)
}.
Definition RptList := list Rpt.

Section Elect.

(** [sort.Sort] on an [RptList]; its [Less] lives with the type. *)
Variable sortRpts : RptList -> RptList.
(** [*rand.Rand], [rand.New (rand.NewSource seed)] and [Int63n]. *)
Variable Rand : Type.
Variable newRand : Z -> Rand.
Variable Int63n : Rand -> Z -> Z * Rand.

Fixpoint findHitFrom (idx : Z) (hit : Z) (hitSums : list Z) : option Z :=
  match hitSums with
  | [] => None
  | x :: rest => if hit <=? x then Some idx else findHitFrom (idx + 1) hit rest
  end.

Definition findHit (hit : Z) (hitSums : list Z) : Z :=
  match findHitFrom 0 hit hitSums with
  | Some idx => idx
  | None => Z.of_nat (length hitSums) - 1
  end.

Fixpoint sumOfFirstNFrom (sum : Z) (rpts : RptList) : list Z * Z :=
  match rpts with
  | [] => ([], sum)
  | r :: rest =>
      let sum' := i64 (sum + Score r) in
      let '(sums, total) := sumOfFirstNFrom sum' rest in
      (sum' :: sums, total)
  end.

Definition sumOfFirstN (rpts : RptList) : list Z * Z := sumOfFirstNFrom 0 rpts.

(** [rpts[idx]] with an [int] index. *)
Definition index {A} (l : list A) (idx : Z) : option A :=
  if idx <? 0 then None else l !! Z.to_nat idx.

(** The [for seats > 0] loop of randomSelectByRpt; every turn of the loop
    costs one unit of fuel. *)
Fixpoint selectLoop (fuel : nat) (rpts : RptList) (sums : list Z) (sum : Z)
    (seats : Z) (selected : gset Z) (result : list Address) (myRand : Rand)
    : outcome (list Address * Rand) :=
  if seats <=? 0 then Ret (result, myRand)
  else
    match fuel with
    | O => Diverge
    | S fuel' =>
        if sum <=? 0 then Panic invalidArgument   (* Int63n panics on n <= 0 *)
        else
          let '(randI, myRand') := Int63n myRand sum in
          let resultIdx := findHit randI sums in
          if bool_decide (resultIdx ∈ selected)
          then selectLoop fuel' rpts sums sum seats selected result myRand'
          else
            match index rpts resultIdx with
            | None => Panic indexOutOfRange
            | Some r =>
                selectLoop fuel' rpts sums sum (i64 (seats - 1))
                           ({[resultIdx]} ∪ selected) (result ++ [Addr r]) myRand'
            end
    end.

(** randomSelectByRpt: the function selects [seats] random addresses and
    returns them as result. *)
Definition randomSelectByRpt (fuel : nat) (rpts : RptList) (myRand : Rand)
    (seats : Z) : outcome (list Address * Rand) :=
  let rpts := sortRpts rpts in
  let '(sums, sum) := sumOfFirstN rpts in
  selectLoop fuel rpts sums sum seats ∅ [] myRand.

(** Elect2.  Both partitions draw from the one [myRand]; [int] is 64 bits
    wide. *)
Definition Elect2 (fuel : nat) (rpts : RptList) (seed : Z)
    (totalSeats lowRptCount lowRptSeats : Z) : outcome (list Address) :=
  let len := Z.of_nat (length rpts) in
  if (len <? lowRptCount) || (totalSeats <? lowRptSeats) || (len <? totalSeats)
     || (lowRptCount <? lowRptSeats)
  then Ret []
  else
    let rpts := sortRpts rpts in
    if lowRptCount <? 0 then Panic indexOutOfRange      (* rpts[:lowRptCount] *)
    else
      let lowRpts := take (Z.to_nat lowRptCount) rpts in
      let highRpts := drop (Z.to_nat lowRptCount) rpts in
      let myRand := newRand seed in
      match randomSelectByRpt fuel lowRpts myRand lowRptSeats with
      | Ret (lowElected, myRand') =>
          match randomSelectByRpt fuel highRpts myRand'
                                  (i64 (totalSeats - lowRptSeats)) with
          | Ret (highElected, _) => Ret (lowElected ++ highElected)
          | Panic p => Panic p
          | Diverge => Diverge
          end
      | Panic p => Panic p
      | Diverge => Diverge
      end.

End Elect.

Arguments selectLoop {Rand} Int63n fuel rpts sums sum seats selected result myRand.
Arguments randomSelectByRpt sortRpts {Rand} Int63n fuel rpts myRand seats.
Arguments Elect2 sortRpts {Rand} newRand Int63n fuel rpts seed
  totalSeats lowRptCount lowRptSeats.

(** Modelled from the spec: [RptList.Less] is declared outside src/; the spec
    (section 3) compares by score, ascending.  An insertion sort with that
    order stands for [sort.Sort]. *)
Fixpoint insertRpt (r : Rpt) (l : RptList) : RptList :=
  match l with
  | [] => [r]
  | x :: rest => if Score r <? Score x then r :: x :: rest
                 else x :: insertRpt r rest
  end.

Fixpoint sortByScore (l : RptList) : RptList :=
  match l with
  | [] => []
  | r :: rest => insertRpt r (sortByScore rest)
  end.

(** A stand-in for [math/rand]: a linear congruential generator on 63 bits,
    seeded with the seed, drawing by remainder. *)
Definition lcgNew (seed : Z) : Z := seed mod 2 ^ 63.
Definition lcgInt63n (r : Z) (n : Z) : Z * Z :=
  (r mod n, (r * 6364136223846793005 + 1442695040888963407) mod 2 ^ 63).

End Election.

Module Admission.

Definition Address := N.
Definition Hash := N.

Inductive error :=
| errTermOutOfRange
| errNotRNode
| errLockedPeriod
| errNoEnoughMoney
| errBackend (code : N).          (* an error made by the contract backend *)

(** The contract backend and the RNode contract bound to it, as the answers
    they give. *)
Record Backend := mkBackend {
  NewRnode : option error;                       (* err of rnode.NewRnode *)
  IsRnode : Address -> bool * option error;
  BalanceAt : Address -> option Z;               (* nil on failure *)
  JoinRnode : Z -> Hash * option error           (* value -> tx hash, err *)
}.

Record AdmissionControl := mkAc {
  address : Address;
  key : option N;                                (* *keystore.Key *)
  contractBackend : Backend;
  sendingFund : Z;                               (* int32, used atomically *)
  (* what the calls leave behind outside the struct *)
  joinTxs : list Hash;                           (* JoinRnode transactions sent *)
  watchers : list Hash                           (* waitForTxDone goroutines *)
}.

Section Fund.

(** [configs.RNodeMinFundReq] and [configs.Cpc]. *)
Variable RNodeMinFundReq : Z.
Variable Cpc : Z.

Definition FundForRNode (ac : AdmissionControl)
    : outcome (option error * AdmissionControl) :=
  let sending := sendingFund ac in
  if negb (sending =? 0) then Ret (None, ac)
  else
    match NewRnode (contractBackend ac) with
    | Some e => Ret (Some e, ac)
    | None =>
        let '(isRNode, err) := IsRnode (contractBackend ac) (address ac) in
        match err with
        | Some e => Ret (Some e, ac)
        | None =>
            if isRNode then Ret (None, ac)
            else
              let minRnodeFund := RNodeMinFundReq * Cpc in
              match BalanceAt (contractBackend ac) (address ac) with
              | None => Panic nilDereference             (* balance.Cmp *)
              | Some balance =>
                  if minRnodeFund <=? balance then
                    match key ac with
                    | None => Panic nilDereference       (* ac.key.PrivateKey *)
                    | Some _ =>
                        let '(tx, err) := JoinRnode (contractBackend ac) minRnodeFund in
                        match err with
                        | Some e => Ret (Some e, ac)
                        | None =>
                            Ret (None,
                                 {| address := address ac; key := key ac;
                                    contractBackend := contractBackend ac;
                                    sendingFund := 1;
                                    joinTxs := joinTxs ac ++ [tx];
                                    watchers := watchers ac ++ [tx] |})
                        end
                    end
                  else Ret (Some errNoEnoughMoney, ac)
              end
        end
    end.

(** waitForTxDone, at the moment it returns: the deferred store clears the
    flag.  How long the polling takes is outside the model. *)
Definition waitForTxDone (txhash : Hash) (ac : AdmissionControl)
    : AdmissionControl :=
  {| address := address ac; key := key ac;
     contractBackend := contractBackend ac;
     sendingFund := 0;
     joinTxs := joinTxs ac;
     watchers := List.filter (fun h => negb (h =? txhash)%N) (watchers ac) |}.

(** [n] calls of FundForRNode one after the other, with nothing in between;
    the results come oldest first. *)
Fixpoint fundCalls (n : nat) (ac : AdmissionControl)
    : outcome (list (option error) * AdmissionControl) :=
  match n with
  | O => Ret ([], ac)
  | S n' =>
      match FundForRNode ac with
      | Ret (r, ac') =>
          match fundCalls n' ac' with
          | Ret (rs, ac'') => Ret (r :: rs, ac'')
          | Panic p => Panic p
          | Diverge => Diverge
          end
      | Panic p => Panic p
      | Diverge => Diverge
      end
  end.

End Fund.

(** A node that holds a key and 300000 coins, is not yet an RNode, and whose
    backend accepts JoinRnode with transaction hash 77; and the same node
    once that transaction has been sent. *)
Definition willing : Backend :=
  {| NewRnode := None;
     IsRnode := fun _ => (false, None);
     BalanceAt := fun _ => Some (300000 * 10 ^ 18);
     JoinRnode := fun _ => (77%N, None) |}.

Definition candidate : AdmissionControl :=
  {| address := 5%N; key := Some 1%N; contractBackend := willing;
     sendingFund := 0; joinTxs := []; watchers := [] |}.

Definition candidateSent : AdmissionControl :=
  {| address := 5%N; key := Some 1%N; contractBackend := willing;
     sendingFund := 1; joinTxs := [77%N]; watchers := [77%N] |}.

End Admission.

(** ** The lock operations on [sm.lock]

    [sync.RWMutex] is not reentrant.  For one goroutine and no other holder,
    an operation either goes through or does not return: a [Lock] or [RLock]
    that has to wait for the goroutine's own earlier [Lock] (or a [Lock] for
    its own [RLock]) waits forever, and unlocking what is not locked is a
    fatal error of the run time. *)
Module DataLock.

Inductive lockOp := Lock | Unlock | RLock | RUnlock.

Record rwmutex := mkMutex { writer : bool; readers : nat }.

Definition free : rwmutex := mkMutex false 0.

Definition lockStep (m : rwmutex) (op : lockOp) : option rwmutex :=
  match op with
  | Lock => if writer m || (0 <? readers m)%nat then None
            else Some (mkMutex true (readers m))
  | Unlock => if writer m then Some (mkMutex false (readers m)) else None
  | RLock => if writer m then None else Some (mkMutex false (S (readers m)))
  | RUnlock => match readers m with
               | O => None
               | S n => Some (mkMutex (writer m) n)
               end
  end.

Fixpoint lockRun (m : rwmutex) (ops : list lockOp) : option rwmutex :=
  match ops with
  | [] => Some m
  | op :: rest =>
      match lockStep m op with
      | Some m' => lockRun m' rest
      | None => None
      end
  end.

(** refreshWhenNewerHeight: [sm.lock.Lock(); defer sm.lock.Unlock()]. *)
Definition ops_refreshWhenNewerHeight : list lockOp := [Lock; Unlock].
(** commitMsgPlus and prepareMsgPlus: [sm.lock.Lock(); defer
    sm.lock.Unlock()], and the first statement calls refreshWhenNewerHeight. *)
Definition ops_msgPlus : list lockOp :=
  [Lock] ++ ops_refreshWhenNewerHeight ++ [Unlock].
(** The certificates and composeValidateMsg: [RLock] / deferred [RUnlock]. *)
Definition ops_certificate : list lockOp := [RLock; RUnlock].
(** composeCommitMsg and composePrepareMsg take no lock of their own. *)
Definition ops_compose : list lockOp := ops_refreshWhenNewerHeight.

End DataLock.


(** ** Readings of the transition table used in the statements below *)
Module Statements.
Import Backend.

(** A message is accepted with an insert that leads to Idle: no input-class
    error, the action is an insert, the next state is Idle. *)
Definition acceptedWithInsert (r : fsmResult) : Prop :=
  (forall e, err r = Some e -> input_class e = false) /\
  act r = insertBlockAction /\
  next r = Idle.

(** A message is refused for the state [s]: an input-class error, nothing to
    do, the state is kept. *)
Definition refusedIn (s : State) (r : fsmResult) : Prop :=
  (exists e, err r = Some e /\ input_class e = true) /\
  output r = nilIface /\
  act r = noAction /\
  next r = s.



(** The machine after refreshWhenNewerHeight. *)
Definition refreshed (height : Z) (sm : DporSm) : DporSm :=
  if lastHeight sm <? height
  then set_commitSigState ∅ (set_prepareSigState ∅ (set_lastHeight height sm))
  else sm.


(** A signature-state entry of the machine, in either phase. *)
Definition entry (sm : DporSm) (a : Address) (item : blockSigItem) : Prop :=
  prepareSigState sm !! a = Some item \/ commitSigState sm !! a = Some item.





(** What an operation that works for the input of digest [oh] may do to the
    signature state: the last-seen height never goes down, and an entry it
    leaves behind was there before, the height unchanged, or carries [oh]. *)
Definition keeps (oh : option Hash) (sm sm' : DporSm) : Prop :=
  lastHeight sm <= lastHeight sm' /\
  forall a item, entry sm' a item ->
    (lastHeight sm' = lastHeight sm /\ entry sm a item) \/ oh = Some (hash item).

Definition respects {A} (oh : option Hash) (m : M A) : Prop :=
  forall sm r sm', m sm = Ret (r, sm') -> keeps oh sm sm'.

End Statements.

(** ** Concrete machines, services and inputs *)
Module Sample.
Import Backend Statements.

(** A header digest that ignores the signature slots; headers of different
    heights below 1000 get different digests. *)
Definition hashOf (h : Header) : Hash := (Z.to_N (Number h) + 1000 * Rest h)%N.

Definition v1 : Address := 7%N.
Definition v2 : Address := 8%N.
Definition sig1 : DporSignature := 99%N.

Definition headerAt (n : Z) : Header :=
  mkHeader n (mkDporSnap [v1; v2] [0%N; 0%N]) 0.
Definition blockAt (n : Z) : Block := mkBlock (headerAt n) 0.

Definition impeachBlock : Block := mkBlock (mkHeader 3 (mkDporSnap [v1; v2] [0%N; 0%N]) 1) 0.

(** A service that accepts every block, recovers the one signer [v1] from
    every header and has [v1; v2] as committee at every height. *)
Definition honest : DporService :=
  {| ValidateBlock := fun _ => None;
     EcrecoverSigs := fun _ _ => ([v1], [sig1], None);
     ValidatorsOf := fun _ => [v1; v2];
     SignHeader := fun h _ => h;
     CreateImpeachBlock := (Some impeachBlock, None) |}.

(** The same service, except that it rejects every block. *)
Definition rejecting : DporService :=
  {| ValidateBlock := fun _ => Some (errService 1);
     EcrecoverSigs := fun _ _ => ([v1], [sig1], None);
     ValidatorsOf := fun _ => [v1; v2];
     SignHeader := fun h _ => h;
     CreateImpeachBlock := (Some impeachBlock, None) |}.

(** A fresh machine with f = 0 (quorum 1) and one with f = 1 (quorum 3). *)
Definition sm0 : DporSm := NewDporSm 0.
Definition sm1 : DporSm := NewDporSm 1.

(** A machine that has seen height 5. *)
Definition smAt5 : DporSm := set_lastHeight 5 (NewDporSm 1).

(** A machine whose cache holds the block of height 4, with both signature
    slots empty, and whose commit state knows nobody. *)
Definition smCached : DporSm :=
  set_bcache [(hashOf (headerAt 4), blockAt 4)] (set_lastHeight 4 (NewDporSm 1)).




End Sample.

(** ** Readings of the results of the transition function *)
Module Outcomes.
Import Backend.

(** Every normal return of [m] satisfies [P]. *)
Definition yields (P : fsmResult -> Prop) (m : M fsmResult) : Prop :=
  forall sm r sm', m sm = Ret (r, sm') -> P r.

(** The input types for which [fsm] reads its input. *)
Definition readable (ty : dataType) : bool :=
  match ty with
  | headerType | blockType | impeachBlockType => true
  | _ => false
  end.

(** A result that carries nothing: no output, no action, no type, no code. *)
Definition carriesNothing (r : fsmResult) : Prop :=
  output r = nilIface /\ act r = noAction /\ dtype r = noType /\
  outMsg r = noMsgCode.

(** What the make-up loop of composeValidateMsg leaves in a slot that held
    [s], for the validator [v] of that slot. *)
Definition madeUp (h : Hash) (commit : gmap Address blockSigItem)
    (v : Address) (s : DporSignature) : DporSignature :=
  if IsEmpty s then
    match commit !! v with
    | Some st => if (hash st =? h)%N then sig st else s
    | None => s
    end
  else s.

(** The condition under which the make-up loop meets neither a missing slot
    nor a missing commit-state entry. *)
Definition canMakeUp (commit : gmap Address blockSigItem)
    (validators : list Address) (slots : list DporSignature) : Prop :=
  forall j v, validators !! j = Some v ->
    exists s, slots !! j = Some s /\
              (IsEmpty s = true -> is_Some (commit !! v)).

End Outcomes.

(** ** Readings of the election *)
Module ElectionStatements.
Import Election.

(** The exact sum of the first [n] scores. *)
Definition prefixSum (rpts : RptList) (n : nat) : Z :=
  foldr Z.add 0 (Score <$> take n rpts).


End ElectionStatements.

(** ** Funding over time *)
Module FundingEvents.
Import Admission.

(** What can happen to the controller between two looks at it: a call of
    FundForRNode, or the receipt watcher of a transaction returning. *)
Inductive event :=
| callFund
| watcherDone (tx : Hash).

Definition isDone (ev : event) : bool :=
  match ev with watcherDone _ => true | callFund => false end.

Section Events.
Variable RNodeMinFundReq : Z.
Variable Cpc : Z.

(** A watcher returns only if it was started. *)
Definition fundStep (ev : event) (ac : AdmissionControl)
    : outcome AdmissionControl :=
  match ev with
  | callFund =>
      match FundForRNode RNodeMinFundReq Cpc ac with
      | Ret (_, ac') => Ret ac'
      | Panic p => Panic p
      | Diverge => Diverge
      end
  | watcherDone tx =>
      if bool_decide (tx ∈ watchers ac) then Ret (waitForTxDone tx ac)
      else Ret ac
  end.

Fixpoint fundRun (evs : list event) (ac : AdmissionControl)
    : outcome AdmissionControl :=
  match evs with
  | [] => Ret ac
  | ev :: rest =>
      match fundStep ev ac with
      | Ret ac' => fundRun rest ac'
      | Panic p => Panic p
      | Diverge => Diverge
      end
  end.

End Events.

(** The flag is set exactly while one watcher runs. *)
Definition flagMatchesWatcher (ac : AdmissionControl) : Prop :=
  (sendingFund ac = 0 /\ watchers ac = []) \/
  (sendingFund ac = 1 /\ exists tx, watchers ac = [tx]).

(** 1 while a JoinRnode may still be sent without a watcher returning. *)
Definition mayStillSend (ac : AdmissionControl) : Z :=
  if sendingFund ac =? 0 then 1 else 0.

End FundingEvents.

(** ** The campaign: Campaign, IsRNode, the builders of the proof works,
    waitSendCampaignMsg and sendCampaignResult of admission.go *)
Module Campaigning.
Import Admission.

Definition maxNumOfCampaignTerms : Z := 10.
Definition minNumOfCampaignTerms : Z := 1.

Inductive workStatus := AcIdle | AcRunning.

Record Result := mkResultOf {
  BlockNumber : Z;      (* int64 *)
  Nonce : Z;            (* uint64 *)
  Success : bool
}.

Inductive workName := Cpu | Memory.
Inductive hashFunc := sha256Func | scryptFunc.

(** What sendCampaignResult asks of [ac.contractBackend]: nil, of type
    [*backends.SimulatedBackend], or anything else. *)
Inductive backendKind := nilBackend | simulatedBackend | otherBackend.

(** The errors of this part: those of the funding part, and the one
    sendCampaignResult makes itself. *)
Inductive campaignError :=
| fundError (e : error)
| errBackendIsNil.        (* errors.New("contractBackend is nil") *)

(** [consensus.ChainReader], as far as the builders use it. *)
Record ChainReader := mkChain {
  CurrentHeader : option Z;             (* the Number of the header, nil if none *)
  GetHeaderByNumber : Z -> option N     (* the header, by a handle *)
}.

(** The transaction ClaimCampaign is called with. *)
Record claim := mkClaim {
  claimTerms : Z;
  cpuNonce : Z;
  cpuBlockNumber : Z;
  memNonce : Z;
  memBlockNumber : Z;
  version : Z
}.

(** The admission and campaign contracts bound to the backend, as the answers
    they give. *)
Record Contracts := mkContracts {
  NewAdmission : option campaignError;
  GetAdmissionParameters : Z * Z * Z * Z * option campaignError;
  NewCampaign : option campaignError;
  ClaimCampaign : claim -> option campaignError
}.

Inductive goroutine :=
| goProve (w : workName)
| goWaitSendCampaignMsg (terms : Z)
| goSendCampaignResult (terms : Z).

(** How a call ends: it returns, it panics, or log.Fatal ends the process. *)
Inductive ending (A : Type) : Type :=
| Done (a : A)
| Crash (p : panicKind)
| Fatal.
Arguments Done {A} a.
Arguments Crash {A} p.
Arguments Fatal {A}.

Section Campaign.

(** [ProofWork] is an interface declared outside src/, built by [newWork];
    [error()] and [result()] are two of its methods. *)
Variable ProofWork : Type.
Variable newWork : Z -> Z -> Address -> option N -> hashFunc -> ProofWork.
Variable workError : ProofWork -> option campaignError.
Variable workResult : ProofWork -> Result.
(** [configs.CampaignVersion]. *)
Variable CampaignVersion : Z.

Record Controller := mkController {
  funding : AdmissionControl;     (* address, key, contractBackend, sendingFund *)
  kind : backendKind;
  contracts : Contracts;
  chain : ChainReader;
  cpuWork : option ProofWork;     (* a nil interface until buildWorks *)
  memoryWork : option ProofWork;
  status : workStatus;
  err : option campaignError;
  doneClosed : bool;              (* the done channel *)
  (* what the calls leave behind outside the struct *)
  started : list goroutine;
  claims : list claim
}.

Definition withRun (st : workStatus) (e : option campaignError)
    (cw mw : option ProofWork) (dc : bool) (gs : list goroutine)
    (ac : Controller) : Controller :=
  {| funding := funding ac; kind := kind ac; contracts := contracts ac;
     chain := chain ac; cpuWork := cw; memoryWork := mw; status := st;
     err := e; doneClosed := dc; started := started ac ++ gs;
     claims := claims ac |}.

Definition withClaim (c : claim) (ac : Controller) : Controller :=
  {| funding := funding ac; kind := kind ac; contracts := contracts ac;
     chain := chain ac; cpuWork := cpuWork ac; memoryWork := memoryWork ac;
     status := status ac; err := err ac; doneClosed := doneClosed ac;
     started := started ac; claims := claims ac ++ [c] |}.

(** IsRNode returns true or false indicating whether the node is RNode. *)
Definition IsRNode (ac : Controller) : bool * option campaignError :=
  match NewRnode (contractBackend (funding ac)) with
  | Some e => (false, Some (fundError e))
  | None =>
      ((IsRnode (contractBackend (funding ac)) (address (funding ac))).1, None)
  end.

(** The block number the two builders take: must use current block number
    - 1, because solidity cannot get hash of current block. *)
Definition seedNumber (current : Z) : Z :=
  if 0 <? current then current - 1 else current.

Definition buildCpuProofWork (ac : Controller) : ending ProofWork :=
  match NewAdmission (contracts ac) with
  | Some _ => Fatal
  | None =>
      let '(cd, _, clt, _, e) := GetAdmissionParameters (contracts ac) in
      match e with
      | Some _ => Fatal
      | None =>
          let cpuDifficulty := u64 cd in
          let cpuLifeTime := i64 (i64 clt * 1000000000) in
          match CurrentHeader (chain ac) with
          | None => Crash nilDereference
          | Some number =>
              let blockNum := seedNumber (u64 number) in
              Done (newWork cpuDifficulty cpuLifeTime (address (funding ac))
                            (GetHeaderByNumber (chain ac) blockNum) sha256Func)
          end
      end
  end.

Definition buildMemoryProofWork (ac : Controller) : ending ProofWork :=
  match NewAdmission (contracts ac) with
  | Some _ => Fatal
  | None =>
      let '(_, md, _, mct, e) := GetAdmissionParameters (contracts ac) in
      match e with
      | Some _ => Fatal
      | None =>
          let memoryDifficulty := u64 md in
          let memoryCpuLifeTime := i64 (i64 mct * 1000000000) in
          match CurrentHeader (chain ac) with
          | None => Crash nilDereference
          | Some number =>
              let blockNum := seedNumber (u64 number) in
              Done (newWork memoryDifficulty memoryCpuLifeTime
                            (address (funding ac))
                            (GetHeaderByNumber (chain ac) blockNum) scryptFunc)
          end
      end
  end.

(** Campaign starts running all the proof work to generate the campaign
    information and waits all proof work done, send msg.  The three
    goroutines are listed in the order of the [go] statements; the two
    provers come out of a map iteration. *)
Definition Campaign (terms : Z) (ac : Controller)
    : ending (option campaignError * Controller) :=
  if (maxNumOfCampaignTerms <? terms) || (terms <? minNumOfCampaignTerms)
  then Done (Some (fundError errTermOutOfRange), ac)
  else
    match status ac with
    | AcRunning => Done (None, ac)
    | AcIdle =>
        let '(isRNode, _) := IsRNode ac in
        if negb isRNode then Done (Some (fundError errNotRNode), ac)
        else
          match buildCpuProofWork ac with
          | Done cw =>
              match buildMemoryProofWork ac with
              | Done mw =>
                  Done (None,
                        withRun AcRunning None (Some cw) (Some mw) false
                                [goProve Cpu; goProve Memory;
                                 goWaitSendCampaignMsg terms] ac)
              | Crash p => Crash p
              | Fatal => Fatal
              end
          | Crash p => Crash p
          | Fatal => Fatal
          end
    end.

Definition workOf (w : workName) (ac : Controller) : option ProofWork :=
  match w with Cpu => cpuWork ac | Memory => memoryWork ac end.

Definition other (w : workName) : workName :=
  match w with Cpu => Memory | Memory => Cpu end.

(** waitSendCampaignMsg, from the moment [wg.Wait()] returns.  The works are
    looked at in the order of a map iteration, which starts with [first].
    The deferred calls put the status back and close the done channel on
    every return path. *)
Definition waitSendCampaignMsg (terms : Z) (first : workName)
    (ac : Controller) : ending Controller :=
  match workOf first ac with
  | None => Crash nilDereference                     (* work.error() *)
  | Some w1 =>
      match workError w1 with
      | Some e =>
          Done (withRun AcIdle (Some e) (cpuWork ac) (memoryWork ac) true [] ac)
      | None =>
          match workOf (other first) ac with
          | None => Crash nilDereference
          | Some w2 =>
              match workError w2 with
              | Some e =>
                  Done (withRun AcIdle (Some e) (cpuWork ac) (memoryWork ac)
                                true [] ac)
              | None =>
                  Done (withRun AcIdle (err ac) (cpuWork ac) (memoryWork ac)
                                true [goSendCampaignResult terms] ac)
              end
          end
      end
  end.

(** sendCampaignResult sends proof info to campaign contract. *)
Definition sendCampaignResult (terms : Z) (ac : Controller)
    : ending Controller :=
  let fail e := withRun (status ac) (Some e) (cpuWork ac) (memoryWork ac)
                        (doneClosed ac) [] ac in
  match kind ac with
  | nilBackend | simulatedBackend => Done (fail errBackendIsNil)
  | otherBackend =>
      match key (funding ac) with
      | None => Crash nilDereference                  (* ac.key.PrivateKey *)
      | Some _ =>
          match NewCampaign (contracts ac) with
          | Some e => Done (fail e)
          | None =>
              match cpuWork ac, memoryWork ac with
              | Some cw, Some mw =>
                  let cpuResult := workResult cw in
                  let memResult := workResult mw in
                  let c := mkClaim terms (Nonce cpuResult)
                                   (BlockNumber cpuResult) (Nonce memResult)
                                   (BlockNumber memResult) CampaignVersion in
                  match ClaimCampaign (contracts ac) c with
                  | Some e => Done (fail e)
                  | None => Done (withClaim c ac)
                  end
              | _, _ => Crash nilDereference
              end
          end
      end
  end.

(** GetResult gets all work proofInfo. *)
Definition GetResult (ac : Controller) : ending (Result * Result) :=
  match cpuWork ac, memoryWork ac with
  | Some cw, Some mw => Done (workResult cw, workResult mw)
  | _, _ => Crash nilDereference
  end.

(** GetStatus gets status of campaign. *)
Definition GetStatus (ac : Controller) : workStatus * option campaignError :=
  (status ac, err ac).

End Campaign.

Arguments funding {ProofWork} c.
Arguments kind {ProofWork} c.
Arguments contracts {ProofWork} c.
Arguments chain {ProofWork} c.
Arguments cpuWork {ProofWork} c.
Arguments memoryWork {ProofWork} c.
Arguments status {ProofWork} c.
Arguments err {ProofWork} c.
Arguments doneClosed {ProofWork} c.
Arguments started {ProofWork} c.
Arguments claims {ProofWork} c.
Arguments IsRNode {ProofWork} ac.
Arguments buildCpuProofWork {ProofWork} newWork ac.
Arguments buildMemoryProofWork {ProofWork} newWork ac.
Arguments Campaign {ProofWork} newWork terms ac.
Arguments waitSendCampaignMsg {ProofWork} workError terms first ac.
Arguments sendCampaignResult {ProofWork} workResult CampaignVersion terms ac.
Arguments GetResult {ProofWork} workResult ac.
Arguments GetStatus {ProofWork} ac.

End Campaigning.

(** ** More sample machines, services, elections and controllers *)
Module Scenes.
Import Backend Statements Sample.


Definition sig2 : DporSignature := 98%N.

(** A machine with f = 0 whose prepare state holds [v1] for the header of
    height 1 and [v2] for that of height 2. *)
Definition smSplit : DporSm :=
  set_prepareSigState
    {[ v1 := mkItem (hashOf (headerAt 1)) sig1;
       v2 := mkItem (hashOf (headerAt 2)) sig2 ]}
    (set_lastHeight 2 sm0).

(** A machine whose cache holds the block of height 4 with both signature
    slots empty, and whose commit state has [v1] for that block and [v2] for
    another. *)
Definition smCachedCommitted : DporSm :=
  set_commitSigState
    {[ v1 := mkItem (hashOf (headerAt 4)) sig1;
       v2 := mkItem (hashOf (headerAt 3)) sig2 ]}
    smCached.


(** Three candidates, unsorted. *)
Definition three : Election.RptList :=
  [Election.mkRpt 1%N 30; Election.mkRpt 2%N 10; Election.mkRpt 3%N 20].

(** A proof work that only remembers what it was built from, reports the
    given error, and whose result is made of its difficulty. *)
Record Work := mkWork {
  difficulty : Z;
  lifeTime : Z;
  coinbase : Admission.Address;
  seedHeader : option N;
  hashFn : Campaigning.hashFunc;
  failure : option Campaigning.campaignError
}.

Definition newWork (d l : Z) (a : Admission.Address) (h : option N)
    (fn : Campaigning.hashFunc) : Work := mkWork d l a h fn None.
Definition workError (w : Work) : option Campaigning.campaignError := failure w.
Definition workResult (w : Work) : Campaigning.Result :=
  Campaigning.mkResultOf 7 (difficulty w) true.

(** A backend on which the node is an RNode already. *)
Definition member : Admission.Backend :=
  {| Admission.NewRnode := None;
     Admission.IsRnode := fun _ => (true, None);
     Admission.BalanceAt := fun _ => Some 0;
     Admission.JoinRnode := fun _ => (0%N, None) |}.

(** An idle controller of an RNode at chain height 8, with admission
    parameters (5, 6, 10, 20), and the same controller once Campaign has
    built the two works, one of which may have failed. *)
Definition rnode : Campaigning.Controller Work :=
  {| Campaigning.funding :=
       {| Admission.address := 5%N; Admission.key := Some 1%N;
          Admission.contractBackend := member; Admission.sendingFund := 0;
          Admission.joinTxs := []; Admission.watchers := [] |};
     Campaigning.kind := Campaigning.otherBackend;
     Campaigning.contracts :=
       {| Campaigning.NewAdmission := None;
          Campaigning.GetAdmissionParameters := (5, 6, 10, 20, None);
          Campaigning.NewCampaign := None;
          Campaigning.ClaimCampaign := fun _ => None |};
     Campaigning.chain :=
       {| Campaigning.CurrentHeader := Some 8;
          Campaigning.GetHeaderByNumber := fun n => Some (Z.to_N n) |};
     Campaigning.cpuWork := None; Campaigning.memoryWork := None;
     Campaigning.status := Campaigning.AcIdle; Campaigning.err := None;
     Campaigning.doneClosed := false;
     Campaigning.started := []; Campaigning.claims := [] |}.

Definition campaigning (memoryFailure : option Campaigning.campaignError)
    : Campaigning.Controller Work :=
  Campaigning.withRun Work Campaigning.AcRunning None
    (Some (mkWork 5 10000000000 5%N (Some 7%N) Campaigning.sha256Func None))
    (Some (mkWork 6 20000000000 5%N (Some 7%N) Campaigning.scryptFunc
                  memoryFailure))
    false
    [Campaigning.goProve Campaigning.Cpu; Campaigning.goProve Campaigning.Memory;
     Campaigning.goWaitSendCampaignMsg 3]
    rnode.

End Scenes.



(** ** The transition function *)
Module Transitions.
Import Backend Statements.
Local Open Scope fsm_scope.

Section Facts.
Variable HeaderHash : Header -> Hash.
Variable service : DporService.

Local Abbreviation fsm := (Backend.fsm HeaderHash service).

(** The result of a validate message carrying a block, state by state. *)
Lemma fsm_validate_block (s : State) (b : option Block) (sm : DporSm) :
  fsm (ptrBlock b) blockType validateMsgCode s sm =
  Ret (match s with
       | Idle | Preprepared | Prepared =>
           mkResult (ptrBlock b) insertBlockAction blockType noMsgCode Idle None
       | ImpeachPreprepared =>
           mkResult nilIface noAction noType noMsgCode ImpeachPreprepared
                    (Some errFsmWrongImpeachPrepreparedInput)
       | ImpeachPrepared =>
           mkResult nilIface noAction noType noMsgCode ImpeachPrepared
                    (Some errFsmWrongPreparedInput)
       end, sm).
Proof. destruct s; reflexivity. Qed.

Lemma fsm_validate_impeachBlock (s : State) (b : option Block) (sm : DporSm) :
  fsm (ptrBlock b) impeachBlockType validateMsgCode s sm =
  fsm (ptrBlock b) blockType validateMsgCode s sm.
Proof. destruct s; reflexivity. Qed.

End Facts.

(** C2, as the code has it: a validate message that carries a block (input
    type block or impeach block) is accepted in Idle, Preprepared and
    Prepared, where the block is handed back for insertion with no error and
    the next state is Idle; in ImpeachPreprepared and ImpeachPrepared it is
    refused with an input-class error, no action, and the state is kept.  The
    machine itself is never changed. *)
Theorem validate_by_state (HeaderHash : Header -> Hash) (service : DporService)
    (s : State) (b : option Block) (sm : DporSm) :
  exists r,
    Backend.fsm HeaderHash service (ptrBlock b) blockType validateMsgCode s sm = Ret (r, sm) /\
    Backend.fsm HeaderHash service (ptrBlock b) impeachBlockType validateMsgCode s sm = Ret (r, sm) /\
    match s with
    | Idle | Preprepared | Prepared =>
        acceptedWithInsert r /\ err r = None /\ output r = ptrBlock b /\
        dtype r = blockType /\ outMsg r = noMsgCode
    | ImpeachPreprepared | ImpeachPrepared => refusedIn s r
    end.
Proof.
  eexists. split; [|split].
  - apply fsm_validate_block.
  - rewrite fsm_validate_impeachBlock. apply fsm_validate_block.
  - destruct s; cbn; unfold acceptedWithInsert, refusedIn; cbn;
      repeat split; try congruence; eexists; split; reflexivity.
Qed.

(** C2 fails in ImpeachPreprepared: the validate message for the block of
    height 1 is not accepted there. *)
Lemma validate_not_accepted_in_ImpeachPreprepared :
  ~ exists r sm',
      Backend.fsm Sample.hashOf Sample.honest (ptrBlock (Some (Sample.blockAt 1)))
                  blockType validateMsgCode ImpeachPreprepared Sample.sm1
      = Ret (r, sm') /\ acceptedWithInsert r.
Proof.
  intros (r & sm' & Hr & _ & Hact & _).
  rewrite fsm_validate_block in Hr. inversion Hr; subst r. discriminate Hact.
Qed.

Section Slips.
Variable HeaderHash : Header -> Hash.
Variable service : DporService.



End Slips.

(** composeCommitMsg always returns for a non-nil header; it reports
    errBlockTooOld exactly when the header is strictly below the last-seen
    height, and then leaves the machine alone. *)
Lemma composeCommitMsg_guard (service : DporService) (hd : Header) (sm : DporSm) :
  exists r sm',
    composeCommitMsg service (Some hd) sm = Ret (r, sm') /\
    (r = (None, Some errBlockTooOld) <-> Number hd < lastHeight sm) /\
    (lastHeight sm <= Number hd ->
       r = (Some (SignHeader service hd Prepared), None) /\
       lastHeight sm' = Number hd).
Proof.
  unfold composeCommitMsg. cbn [deref bind ret get].
  unfold bind at 1, ret at 1. unfold bind at 1, get at 1.
  destruct (Z.ltb_spec (Number hd) (lastHeight sm)) as [Hlt | Hge].
  - do 2 eexists. split; [reflexivity|]. split; [tauto | lia].
  - unfold refreshWhenNewerHeight, forwardSigs, bind, get, modify, ret.
    destruct (Z.ltb_spec (lastHeight sm) (Number hd)) as [Hnew | Hold].
    + do 2 eexists. split; [reflexivity|].
      split; [split; [discriminate | lia]|].
      intros _. split; [reflexivity|].
      cbn. rewrite map_to_list_empty. reflexivity.
    + do 2 eexists. split; [reflexivity|].
      split; [split; [discriminate | lia]|].
      intros _. split; [reflexivity|].
      cbn.
      assert (Hl : forall l (s : DporSm),
                 lastHeight (foldl (fun acc (kv : Address * blockSigItem) =>
                     log_call (UpdateFinalSigsCache kv.1 (hash kv.2) (sig kv.2)) acc) s l)
                 = lastHeight s).
      { induction l as [|kv l IH]; intros s; cbn; [reflexivity|]. now rewrite IH. }
      rewrite Hl. lia.
Qed.

Section Faulty.
Variable HeaderHash : Header -> Hash.
Variable service : DporService.


(** composePrepareMsg reports errBlockTooOld exactly when the block is at or
    below the last-seen height. *)
Lemma composePrepareMsg_guard (blk : Block) (sm : DporSm) :
  exists r sm',
    composePrepareMsg HeaderHash service (Some blk) sm = Ret (r, sm') /\
    (r = (None, Some errBlockTooOld) <-> Number (header blk) <= lastHeight sm).
Proof.
  unfold composePrepareMsg. cbn [deref bind ret get].
  unfold bind at 1, ret at 1. unfold bind at 1, get at 1.
  destruct (Z.leb_spec (Number (header blk)) (lastHeight sm)) as [Hle | Hgt].
  - do 2 eexists. split; [reflexivity|]. tauto.
  - unfold refreshWhenNewerHeight, forwardSigs, bind, get, modify, ret.
    destruct (Z.ltb_spec (lastHeight sm) (Number (header blk))) as [Hnew | Hold]; [|lia].
    do 2 eexists. split; [reflexivity|]. split; [discriminate | lia].
Qed.

End Faulty.

(** C6, as the code has it: composeCommit fails with BlockTooOld if and only
    if header.height < last-seen height, whereas composePrepare rejects
    block.height <= last-seen height; for a header whose height equals the
    last-seen height composeCommit succeeds and returns the header signed at
    phase Prepared. *)
Theorem composeCommit_too_old_iff_below (HeaderHash : Header -> Hash)
    (service : DporService) (hd : Header) (blk : Block) (sm : DporSm) :
  (exists r sm',
     composeCommitMsg service (Some hd) sm = Ret (r, sm') /\
     (r = (None, Some errBlockTooOld) <-> Number hd < lastHeight sm) /\
     (Number hd = lastHeight sm ->
        r = (Some (SignHeader service hd Prepared), None))) /\
  (exists r sm',
     composePrepareMsg HeaderHash service (Some blk) sm = Ret (r, sm') /\
     (r = (None, Some errBlockTooOld) <-> Number (header blk) <= lastHeight sm)).
Proof.
  split.
  - destruct (composeCommitMsg_guard service hd sm) as (r & sm' & Hr & Hiff & Hge).
    exists r, sm'. split; [exact Hr|]. split; [exact Hiff|].
    intros Heq. apply Hge. lia.
  - apply composePrepareMsg_guard.
Qed.


(** C6 fails at equality: with last-seen height 5, composeCommit of a header
    of height 5 does not report BlockTooOld. *)
Lemma composeCommit_accepts_equal_height :
  Number (Sample.headerAt 5) <= lastHeight Sample.smAt5 /\
  ~ exists sm',
      composeCommitMsg Sample.honest (Some (Sample.headerAt 5)) Sample.smAt5
      = Ret ((None, Some errBlockTooOld), sm').
Proof.
  split; [cbn; lia|].
  intros (sm' & H). vm_compute in H. discriminate H.
Qed.

(** A nil commit-state entry met by the make-up loop stops it with a nil
    dereference, wherever in the validator list it sits. *)
Lemma makeUpSigs_nil_entry (h : Hash) (commit : gmap Address blockSigItem)
    (validators : list Address) :
  forall (k : nat) (slots : list DporSignature) (j : nat) (v : Address)
         (s : DporSignature),
    validators !! j = Some v ->
    slots !! (k + j)%nat = Some s ->
    IsEmpty s = true ->
    commit !! v = None ->
    makeUpSigs h commit validators k slots = Panic nilDereference.
Proof.
  induction validators as [|v0 rest IH]; intros k slots j v s Hv Hs He Hc.
  - rewrite lookup_nil in Hv. discriminate.
  - destruct j as [|j'].
    + cbn in Hv. inversion Hv; subst v0.
      rewrite Nat.add_0_r in Hs. cbn. rewrite Hs, He, Hc. reflexivity.
    + cbn in Hv. cbn [makeUpSigs].
      assert (Hk : (k < length slots)%nat).
      { apply lookup_lt_Some in Hs. lia. }
      destruct (lookup_lt_is_Some_2 slots k Hk) as [s0 Hs0]. rewrite Hs0.
      assert (Hnext : forall slots',
                 slots' !! (S k + j')%nat = Some s ->
                 makeUpSigs h commit rest (S k) slots' = Panic nilDereference).
      { intros slots' Hs'. eapply IH; eauto. }
      replace (k + S j')%nat with (S k + j')%nat in Hs by lia.
      destruct (IsEmpty s0).
      * destruct (commit !! v0) as [st|]; [|reflexivity].
        destruct (hash st =? h)%N.
        -- apply Hnext. rewrite list_lookup_insert_ne by lia. exact Hs.
        -- apply Hnext. exact Hs.
      * apply Hnext. exact Hs.
Qed.

(** C9: when the block of header [hd] is in the cache, composeValidateMsg
    panics with a nil dereference as soon as some validator of [hd] has an
    empty slot in the cached block and no commit-state entry; hence it returns
    only when every validator with an empty slot has an entry. *)
Theorem composeValidateMsg_nil_entry_panics (HeaderHash : Header -> Hash)
    (hd : Header) (theBlock : Block) (sm : DporSm) :
  cacheGet (bcache sm) (HeaderHash hd) = Some theBlock ->
  ((exists i v s,
      Validators (Dpor hd) !! i = Some v /\
      Sigs (Dpor (header theBlock)) !! i = Some s /\
      IsEmpty s = true /\
      commitSigState sm !! v = None) ->
   composeValidateMsg HeaderHash (Some hd) sm = Panic nilDereference) /\
  (forall r sm',
      composeValidateMsg HeaderHash (Some hd) sm = Ret (r, sm') ->
      forall i v s,
        Validators (Dpor hd) !! i = Some v ->
        Sigs (Dpor (header theBlock)) !! i = Some s ->
        IsEmpty s = true ->
        is_Some (commitSigState sm !! v)).
Proof.
  intros Hget.
  assert (Hpanic : (exists i v s,
      Validators (Dpor hd) !! i = Some v /\
      Sigs (Dpor (header theBlock)) !! i = Some s /\
      IsEmpty s = true /\
      commitSigState sm !! v = None) ->
   composeValidateMsg HeaderHash (Some hd) sm = Panic nilDereference).
  { intros (i & v & s & Hv & Hs & He & Hc).
    unfold composeValidateMsg, deref, bind, ret, get.
    rewrite Hget.
    rewrite (makeUpSigs_nil_entry _ _ _ 0%nat _ i v s Hv Hs He Hc).
    reflexivity. }
  split; [exact Hpanic|].
  intros r sm' Hret i v s Hv Hs He.
  destruct (commitSigState sm !! v) as [st|] eqn:Hc; [eauto|].
  rewrite Hpanic in Hret by eauto 10. discriminate Hret.
Qed.




(** C9 at the cached block of height 4, whose first slot is empty while the
    commit state is empty. *)
Lemma composeValidateMsg_nil_entry_witness :
  cacheGet (bcache Sample.smCached) (Sample.hashOf (Sample.headerAt 4))
    = Some (Sample.blockAt 4) /\
  composeValidateMsg Sample.hashOf (Some (Sample.headerAt 4)) Sample.smCached
    = Panic nilDereference.
Proof.
  split; [reflexivity|].
  apply (composeValidateMsg_nil_entry_panics Sample.hashOf (Sample.headerAt 4)
           (Sample.blockAt 4) Sample.smCached); [reflexivity|].
  exists 0%nat, Sample.v1, 0%N. repeat split; reflexivity.
Defined.

End Transitions.

(** ** The signature state *)
Module SigState.
Import Backend Statements.
Local Open Scope fsm_scope.

(** The counting loop counts the entries that carry the digest. *)
Lemma countSigs_filter (st : gmap Address blockSigItem) (h : Hash) :
  countSigs st h =
  Z.of_nat (size (filter (fun kv : Address * blockSigItem => hash kv.2 = h) st)).
Proof.
  unfold countSigs.
  apply (map_fold_weak_ind
           (fun r m => r = Z.of_nat (size (filter
              (fun kv : Address * blockSigItem => hash kv.2 = h) m)))).
  - rewrite map_filter_empty, map_size_empty. reflexivity.
  - intros i x m r Hi ->.
    destruct (N.eqb_spec (hash x) h) as [Heq | Hne].
    + rewrite map_filter_insert_True by exact Heq.
      rewrite map_size_insert_None; [lia|].
      apply map_lookup_filter_None. left. exact Hi.
    + rewrite map_filter_insert_not'; [reflexivity | exact Hne |].
      intros y Hy. rewrite Hi in Hy. discriminate.
Qed.




Section Plus.
Variable HeaderHash : Header -> Hash.
Variable service : DporService.

Lemma refreshWhenNewerHeight_eq (height : Z) (sm : DporSm) :
  refreshWhenNewerHeight height sm = Ret (tt, refreshed height sm).
Proof.
  unfold refreshWhenNewerHeight, refreshed, bind, get, modify, ret.
  destruct (lastHeight sm <? height); reflexivity.
Qed.






End Plus.



End SigState.

(** ** The monotonic-height reset over runs of the machine *)
Module Reset.
Import Backend Statements SigState.
Local Open Scope fsm_scope.

Lemma keeps_refl (oh : option Hash) (sm : DporSm) : keeps oh sm sm.
Proof. split; [lia|]. intros a item H. left. split; [reflexivity | exact H]. Qed.

Lemma keeps_trans (oh : option Hash) (sm sm1 sm2 : DporSm) :
  keeps oh sm sm1 -> keeps oh sm1 sm2 -> keeps oh sm sm2.
Proof.
  intros [Hh1 He1] [Hh2 He2]. split; [lia|].
  intros a item H. destruct (He2 a item H) as [[Heq H1] | Hoh]; [|now right].
  destruct (He1 a item H1) as [[Heq1 H0] | Hoh]; [|now right].
  left. split; [congruence | exact H0].
Qed.

(** A change that leaves the two maps and the last-seen height alone. *)
Lemma keeps_same (oh : option Hash) (sm sm' : DporSm) :
  prepareSigState sm' = prepareSigState sm ->
  commitSigState sm' = commitSigState sm ->
  lastHeight sm' = lastHeight sm ->
  keeps oh sm sm'.
Proof.
  intros Hp Hc Hl. split; [lia|]. intros a item H. left. split; [exact Hl|].
  unfold entry in *. rewrite Hp, Hc in H. exact H.
Qed.

Lemma keeps_refreshed (oh : option Hash) (height : Z) (sm : DporSm) :
  keeps oh sm (refreshed height sm).
Proof.
  unfold refreshed. destruct (Z.ltb_spec (lastHeight sm) height) as [Hlt | Hge].
  - split; [cbn; lia|]. intros a item [H | H]; cbn in H;
      rewrite lookup_empty in H; discriminate.
  - apply keeps_refl.
Qed.

Lemma respects_ret {A} (oh : option Hash) (a : A) : respects oh (ret a).
Proof. intros sm r sm' H. inversion H; subst. apply keeps_refl. Qed.

Lemma respects_panic {A} (oh : option Hash) (p : panicKind) :
  respects oh (@panic A p).
Proof. intros sm r sm' H. discriminate H. Qed.

Lemma respects_bind {A B} (oh : option Hash) (m : M A) (k : A -> M B) :
  respects oh m -> (forall a, respects oh (k a)) -> respects oh (bind m k).
Proof.
  intros Hm Hk sm r sm' H. unfold bind in H.
  destruct (m sm) as [[a sm1]| |] eqn:E; try discriminate.
  eapply keeps_trans; [eapply Hm; eauto | eapply Hk; eauto].
Qed.

Lemma respects_get (oh : option Hash) : respects oh get.
Proof. intros sm r sm' H. inversion H; subst. apply keeps_refl. Qed.

Lemma respects_deref {A} (oh : option Hash) (p : option A) : respects oh (deref p).
Proof. destruct p; [apply respects_ret | apply respects_panic]. Qed.

Lemma lastHeight_forward call l : forall sm,
  let sm' := foldl (fun acc (kv : Address * blockSigItem) =>
                      log_call (call kv.1 (hash kv.2) (sig kv.2)) acc) sm l in
  prepareSigState sm' = prepareSigState sm /\
  commitSigState sm' = commitSigState sm /\
  lastHeight sm' = lastHeight sm.
Proof.
  induction l as [|kv l IH]; intros sm; cbn; [auto|].
  destruct (IH (log_call (call kv.1 (hash kv.2) (sig kv.2)) sm)) as (Hp & Hc & Hl).
  cbn in *. rewrite Hp, Hc, Hl. auto.
Qed.

Lemma respects_forwardSigs (oh : option Hash) call st :
  respects oh (forwardSigs call st).
Proof.
  intros sm r sm' H. unfold forwardSigs in H. inversion H; subst.
  destruct (lastHeight_forward call (map_to_list st) sm) as (Hp & Hc & Hl).
  now apply keeps_same.
Qed.

Section Ops.
Variable HeaderHash : Header -> Hash.
Variable service : DporService.

Lemma respects_refresh (oh : option Hash) (height : Z) :
  respects oh (refreshWhenNewerHeight height).
Proof.
  intros sm r sm' H. rewrite refreshWhenNewerHeight_eq in H.
  inversion H; subst. apply keeps_refreshed.
Qed.




Lemma respects_modify_same (oh : option Hash) (g : DporSm -> DporSm) :
  (forall sm, prepareSigState (g sm) = prepareSigState sm /\
              commitSigState (g sm) = commitSigState sm /\
              lastHeight (g sm) = lastHeight sm) ->
  respects oh (modify g).
Proof.
  intros Hg sm r sm' H. inversion H; subst.
  destruct (Hg sm) as (Hp & Hc & Hl). now apply keeps_same.
Qed.

Lemma respects_composeValidateMsg (oh : option Hash) (h : option Header) :
  respects oh (composeValidateMsg HeaderHash h).
Proof.
  unfold composeValidateMsg.
  apply respects_bind; [apply respects_deref|]. intros hd.
  intros sm r sm' H. unfold bind, get in H.
  destruct (cacheGet (bcache sm) (HeaderHash hd)) as [b|];
    [|inversion H; subst; apply keeps_refl].
  destruct (makeUpSigs _ _ _ _ _) as [slots| |]; try discriminate H.
  inversion H; subst. now apply keeps_same.
Qed.

Lemma respects_composeCommitMsg (oh : option Hash) (h : option Header) :
  respects oh (composeCommitMsg service h).
Proof.
  unfold composeCommitMsg.
  apply respects_bind; [apply respects_deref|]. intros hd.
  apply respects_bind; [apply respects_get|]. intros sm0.
  destruct (Number hd <? lastHeight sm0); [apply respects_ret|].
  apply respects_bind; [apply respects_refresh|]. intros _.
  apply respects_bind; [apply respects_get|]. intros sm1.
  apply respects_bind; [apply respects_forwardSigs|]. intros _.
  apply respects_bind; [apply respects_modify_same; intros; cbn; auto|]. intros _.
  apply respects_ret.
Qed.

Lemma respects_composePrepareMsg (oh : option Hash) (b : option Block) :
  respects oh (composePrepareMsg HeaderHash service b).
Proof.
  unfold composePrepareMsg.
  apply respects_bind; [apply respects_deref|]. intros blk.
  apply respects_bind; [apply respects_get|]. intros sm0.
  destruct (Number (header blk) <=? lastHeight sm0); [apply respects_ret|].
  apply respects_bind; [apply respects_refresh|]. intros _.
  apply respects_bind; [apply respects_modify_same; intros; cbn; auto|]. intros _.
  apply respects_bind; [apply respects_get|]. intros sm1.
  apply respects_bind; [apply respects_forwardSigs|]. intros _.
  apply respects_bind; [apply respects_modify_same; intros; cbn; auto|]. intros _.
  apply respects_bind; [apply respects_modify_same; intros; cbn; auto|]. intros _.
  apply respects_ret.
Qed.

Lemma respects_proposeImpeachBlock (oh : option Hash) :
  respects oh (proposeImpeachBlock service).
Proof.
  unfold proposeImpeachBlock.
  destruct (CreateImpeachBlock service) as [b [e|]]; [apply respects_ret|].
  apply respects_bind; [apply respects_deref|]. intros blk.
  apply respects_bind; [apply respects_modify_same; intros; cbn; auto|]. intros _.
  apply respects_ret.
Qed.

Lemma respects_verifyBlock (oh : option Hash) (b : option Block) :
  respects oh (verifyBlock service b).
Proof. apply respects_ret. Qed.

End Ops.



Create HintDb respects.
#[local] Hint Resolve respects_ret respects_panic respects_get respects_deref
  respects_refresh respects_composeValidateMsg respects_composeCommitMsg
  respects_composePrepareMsg respects_proposeImpeachBlock respects_verifyBlock
  : respects.

Section Machine.
Variable HeaderHash : Header -> Hash.
Variable service : DporService.





End Machine.




End Reset.

(** ** The election *)
Module ElectionFacts.
Import Election.

Lemma insertRpt_perm (r : Rpt) (l : RptList) : insertRpt r l ≡ₚ r :: l.
Proof.
  induction l as [|x rest IH]; cbn; [reflexivity|].
  destruct (Score r <? Score x); [reflexivity|].
  rewrite IH. apply Permutation_swap.
Qed.

Lemma sortByScore_perm (l : RptList) : sortByScore l ≡ₚ l.
Proof.
  induction l as [|r rest IH]; cbn; [reflexivity|].
  rewrite insertRpt_perm. now rewrite IH.
Qed.

Lemma lcgInt63n_range (r n : Z) : 0 < n -> 0 <= (lcgInt63n r n).1 < n.
Proof. intros Hn. cbn. apply Z.mod_pos_bound. exact Hn. Qed.

Section Stuck.
Variable sortRpts : RptList -> RptList.
Variable Rand : Type.
Variable newRand : Z -> Rand.
Variable Int63n : Rand -> Z -> Z * Rand.
Hypothesis sort_perm : forall l, sortRpts l ≡ₚ l.
Hypothesis Int63n_range : forall r n, 0 < n -> 0 <= (Int63n r n).1 < n.

(** Two candidates of score 1: the prefix sums are [1; 2], and every draw
    below 2 hits index 0. *)
Lemma findHit_two (hit : Z) : 0 <= hit < 2 -> findHit hit [1; 2] = 0.
Proof.
  intros H. unfold findHit. cbn.
  destruct (Z.leb_spec hit 1); [reflexivity | lia].
Qed.

(** Once index 0 is taken and a seat is still open, the loop only redraws. *)
Lemma selectLoop_redraws (rpts : RptList) (result : list Address) :
  forall (fuel : nat) (myRand : Rand),
    selectLoop Int63n fuel rpts [1; 2] 2 1 {[0]} result myRand = Diverge.
Proof.
  induction fuel as [|fuel IH]; intros myRand; [reflexivity|].
  cbn [selectLoop]. cbn [Z.leb Z.compare].
  pose proof (Int63n_range myRand 2 ltac:(lia)) as Hr.
  destruct (Int63n myRand 2) as [randI myRand'] eqn:E. cbn [fst] in Hr.
  rewrite (findHit_two randI Hr).
  rewrite bool_decide_eq_true_2 by set_solver.
  apply IH.
Qed.

Lemma two_ones (a b : Address) (l : RptList) :
  l ≡ₚ [mkRpt a 1; mkRpt b 1] ->
  exists x y, l = [x; y] /\ Score x = 1 /\ Score y = 1.
Proof.
  intros Hp.
  assert (Hf : Forall (fun r => Score r = 1) l).
  { rewrite Hp. repeat constructor. }
  pose proof (Permutation_length Hp) as Hl. cbn in Hl.
  destruct l as [|x [|y [|z l]]]; try discriminate Hl.
  exists x, y. inversion Hf as [|? ? Hx Hf']. inversion Hf' as [|? ? Hy _].
  auto.
Qed.

Lemma sort_nil : sortRpts [] = [].
Proof. apply Permutation_nil_r. apply sort_perm. Qed.

(** C7 at the code's own value: with two candidates of score 1 and two
    seats, all from the high partition, Elect2 never returns, whatever the
    seed, the generator and the number of loop turns allowed. *)
Theorem Elect2_two_equal_scores_never_returns (a b : Address) (seed : Z)
    (fuel : nat) :
  Elect2 sortRpts newRand Int63n fuel [mkRpt a 1; mkRpt b 1] seed 2 0 0 = Diverge.
Proof.
  unfold Elect2.
  change (Z.of_nat (length [mkRpt a 1; mkRpt b 1])) with 2.
  change (Z.to_nat 0) with 0%nat.
  cbn [Z.ltb Z.compare Pos.compare Pos.compare_cont orb].
  rewrite take_0, drop_0.
  unfold randomSelectByRpt at 1. rewrite sort_nil. cbn [sumOfFirstN sumOfFirstNFrom].
  replace (selectLoop Int63n fuel [] [] 0 0 ∅ [] (newRand seed))
    with (Ret ([] : list Address, newRand seed)) by (destruct fuel; reflexivity).
  unfold randomSelectByRpt.
  destruct (two_ones a b (sortRpts (sortRpts [mkRpt a 1; mkRpt b 1])))
    as (x & y & -> & Hx & Hy).
  { now rewrite !sort_perm. }
  unfold sumOfFirstN. cbn [sumOfFirstNFrom]. rewrite Hx, Hy.
  change (i64 (0 + 1)) with 1. change (i64 (1 + 1)) with 2.
  change (i64 (2 - 0)) with 2.
  destruct fuel as [|fuel]; [reflexivity|].
  cbn [selectLoop]. cbn [Z.leb Z.compare].
  pose proof (Int63n_range (newRand seed) 2 ltac:(lia)) as Hr.
  destruct (Int63n (newRand seed) 2) as [randI myRand'] eqn:E. cbn [fst] in Hr.
  rewrite (findHit_two randI Hr).
  rewrite bool_decide_eq_false_2 by set_solver.
  cbn [index Z.ltb Z.compare Z.to_nat lookup list_lookup].
  change (i64 (2 - 1)) with 1.
  replace ({[0]} ∪ ∅ : gset Z) with ({[0]} : gset Z) by set_solver.
  change ([x; y] !! Z.to_nat 0) with (Some x).
  cbv beta iota. rewrite selectLoop_redraws. reflexivity.
Qed.

End Stuck.

(** C7 at seed 42, with the insertion sort and the congruential generator,
    after a thousand turns of the loop. *)
Lemma Elect2_two_equal_scores_witness :
  Elect2 sortByScore lcgNew lcgInt63n 1000 [mkRpt 1%N 1; mkRpt 2%N 1] 42 2 0 0
  = Diverge.
Proof.
  apply (Elect2_two_equal_scores_never_returns sortByScore Z lcgNew lcgInt63n
           sortByScore_perm lcgInt63n_range 1%N 2%N 42 1000).
Defined.

Section Returns.
Variable sortRpts : RptList -> RptList.
Variable Rand : Type.
Variable newRand : Z -> Rand.
Variable Int63n : Rand -> Z -> Z * Rand.
Hypothesis sort_perm : forall l, sortRpts l ≡ₚ l.





(** A partition with fewer candidates than seats: two candidates, both in
    the low partition, one low seat and one seat left for the empty high
    partition.  The four preconditions hold and Int63n is called with 0. *)
Lemma Elect2_empty_high_partition_panics (a b : Address) (seed : Z) (fuel : nat) :
  (forall r n, 0 < n -> 0 <= (Int63n r n).1 < n) ->
  Elect2 sortRpts newRand Int63n (S fuel) [mkRpt a 1; mkRpt b 2] seed 2 2 1
    = Panic invalidArgument.
Proof.
  intros Hrange. unfold Elect2.
  change (Z.of_nat (length [mkRpt a 1; mkRpt b 2])) with 2.
  change (Z.to_nat 2) with 2%nat.
  cbn [Z.ltb Z.compare Pos.compare Pos.compare_cont orb].
  change (i64 (2 - 1)) with 1.
  assert (Hlen : length (sortRpts [mkRpt a 1; mkRpt b 2]) = 2%nat).
  { now rewrite sort_perm. }
  rewrite take_ge, drop_ge by lia.
  assert (Hnil : sortRpts [] = []) by (apply Permutation_nil_r, sort_perm).
  unfold randomSelectByRpt. rewrite Hnil.
  set (l := sortRpts (sortRpts [mkRpt a 1; mkRpt b 2])).
  assert (Hl : l ≡ₚ [mkRpt a 1; mkRpt b 2]) by (unfold l; now rewrite !sort_perm).
  assert (Hcases : exists x y, l = [x; y] /\
            ((Score x = 1 /\ Score y = 2) \/ (Score x = 2 /\ Score y = 1))).
  { pose proof (Permutation_length Hl) as Hl2. cbn in Hl2.
    destruct l as [|x [|y [|z l']]]; try discriminate Hl2.
    exists x, y. split; [reflexivity|].
    apply Permutation_length_2 in Hl as [[-> ->] | [-> ->]]; cbn; auto. }
  destruct Hcases as (x & y & -> & Hsc).
  assert (Hsums : exists s0, sumOfFirstN [x; y] = ([s0; 3], 3) /\ 0 < s0 <= 3).
  { unfold sumOfFirstN. cbn [sumOfFirstNFrom].
    destruct Hsc as [[-> ->] | [-> ->]].
    - exists 1. split; [reflexivity | lia].
    - exists 2. split; [reflexivity | lia]. }
  destruct Hsums as (s0 & -> & Hs0). cbn [sumOfFirstN sumOfFirstNFrom].
  cbn [selectLoop Z.leb Z.compare].
  pose proof (Hrange (newRand seed) 3 ltac:(lia)) as Hr.
  destruct (Int63n (newRand seed) 3) as [randI r1]. cbn [fst] in Hr.
  assert (Hhit : findHit randI [s0; 3] = 0 \/ findHit randI [s0; 3] = 1).
  { unfold findHit. cbn.
    destruct (Z.leb_spec randI s0); [now left|].
    destruct (Z.leb_spec randI 3); [now right | lia]. }
  rewrite bool_decide_eq_false_2 by (apply not_elem_of_empty).
  assert (Hone : forall sel res (r : Rand),
            selectLoop Int63n fuel [x; y] [s0; 3] 3 (i64 (1 - 1)) sel res r
            = Ret (res, r)).
  { intros. destruct fuel; reflexivity. }
  destruct Hhit as [-> | ->]; cbn [index Z.ltb Z.compare].
  - change ([x; y] !! Z.to_nat 0) with (Some x). cbv beta iota.
    rewrite Hone. reflexivity.
  - change ([x; y] !! Z.to_nat 1) with (Some y). cbv beta iota.
    rewrite Hone. reflexivity.
Qed.

End Returns.

End ElectionFacts.

(** ** Funding *)
Module AdmissionFacts.
Import Admission.

Section Fund.
Variable RNodeMinFundReq : Z.
Variable Cpc : Z.

Local Abbreviation FundForRNode := (Admission.FundForRNode RNodeMinFundReq Cpc).
Local Abbreviation fundCalls := (Admission.fundCalls RNodeMinFundReq Cpc).

(** While the flag is set the call returns at once and changes nothing. *)
Lemma FundForRNode_sending (ac : AdmissionControl) :
  sendingFund ac <> 0 -> FundForRNode ac = Ret (None, ac).
Proof.
  intros H. unfold Admission.FundForRNode.
  destruct (Z.eqb_spec (sendingFund ac) 0); [contradiction | reflexivity].
Qed.

Lemma fundCalls_sending (n : nat) (ac : AdmissionControl) :
  sendingFund ac <> 0 -> fundCalls n ac = Ret (replicate n None, ac).
Proof.
  intros H. induction n as [|n IH]; [reflexivity|].
  cbn [Admission.fundCalls]. rewrite FundForRNode_sending by exact H.
  rewrite IH. reflexivity.
Qed.

(** A call that sets the flag is one that sent JoinRnode. *)
Lemma FundForRNode_sets_flag (ac ac1 : AdmissionControl) (r : option error) :
  sendingFund ac = 0 ->
  FundForRNode ac = Ret (r, ac1) ->
  sendingFund ac1 <> 0 ->
  r = None /\
  (JoinRnode (contractBackend ac) (RNodeMinFundReq * Cpc)).2 = None /\
  joinTxs ac1 =
    joinTxs ac ++ [(JoinRnode (contractBackend ac) (RNodeMinFundReq * Cpc)).1].
Proof.
  intros H0 Hcall H1. unfold Admission.FundForRNode in Hcall.
  rewrite H0 in Hcall. cbn [Z.eqb negb] in Hcall.
  destruct (NewRnode (contractBackend ac));
    [inversion Hcall; subst; contradiction|].
  destruct (IsRnode (contractBackend ac) (address ac)) as [isR [e|]];
    [inversion Hcall; subst; contradiction|].
  destruct isR; [inversion Hcall; subst; contradiction|].
  destruct (BalanceAt (contractBackend ac) (address ac)) as [bal|]; [|discriminate].
  destruct (RNodeMinFundReq * Cpc <=? bal);
    [|inversion Hcall; subst; contradiction].
  destruct (key ac); [|discriminate].
  destruct (JoinRnode (contractBackend ac) (RNodeMinFundReq * Cpc)) as [tx [e|]];
    [inversion Hcall; subst; contradiction|].
  inversion Hcall; subst. auto.
Qed.

End Fund.

(** C8: in a run of N >= 1 calls with nothing in between, if the first call
    finds the flag clear and sets it (it sent JoinRnode), then exactly one
    JoinRnode transaction is sent in the whole run, and every later call
    returns nil at once and leaves everything as the first call left it. *)
Theorem FundForRNode_once_while_sending (RNodeMinFundReq Cpc : Z)
    (ac ac1 : AdmissionControl) (r : option error) (n : nat) :
  sendingFund ac = 0 ->
  Admission.FundForRNode RNodeMinFundReq Cpc ac = Ret (r, ac1) ->
  sendingFund ac1 <> 0 ->
  Admission.fundCalls RNodeMinFundReq Cpc (S n) ac = Ret (replicate (S n) None, ac1) /\
  length (joinTxs ac1) = S (length (joinTxs ac)) /\
  Admission.fundCalls RNodeMinFundReq Cpc n ac1 = Ret (replicate n None, ac1).
Proof.
  intros H0 Hcall H1.
  destruct (FundForRNode_sets_flag _ _ _ _ _ H0 Hcall H1) as (-> & _ & Htx).
  pose proof (fundCalls_sending RNodeMinFundReq Cpc n ac1 H1) as Hrest.
  split; [|split].
  - cbn [Admission.fundCalls]. rewrite Hcall, Hrest. reflexivity.
  - rewrite Htx, length_app. cbn. lia.
  - exact Hrest.
Qed.

(** C8 on three calls of a node that can pay. *)
Lemma FundForRNode_once_witness :
  sendingFund candidate = 0 /\
  Admission.fundCalls 200000 (10 ^ 18) 3 candidate
    = Ret ([None; None; None], candidateSent) /\
  length (joinTxs candidateSent) = 1%nat /\
  Admission.fundCalls 200000 (10 ^ 18) 2 candidateSent
    = Ret ([None; None], candidateSent).
Proof.
  split; [reflexivity|].
  apply (FundForRNode_once_while_sending 200000 (10 ^ 18) candidate
           candidateSent None 2).
  - reflexivity.
  - reflexivity.
  - cbn. lia.
Defined.

(** When its transaction is done, the watcher clears the flag, and the next
    call goes to the backend again. *)
Lemma waitForTxDone_clears_flag (txhash : Hash) (ac : AdmissionControl) :
  sendingFund (waitForTxDone txhash ac) = 0.
Proof. reflexivity. Qed.

End AdmissionFacts.

(** ** The data lock *)
Module DataLockFacts.
Import DataLock.

(** The certificates, composeValidateMsg and the two compose operations get
    and release the lock. *)
Lemma certificate_and_compose_locks :
  lockRun free ops_certificate = Some free /\
  lockRun free ops_compose = Some free.
Proof. split; reflexivity. Qed.

(** commitMsgPlus and prepareMsgPlus hold the write lock when they call
    refreshWhenNewerHeight, which asks for it again: on a [sync.RWMutex] that
    second Lock does not return. *)
Lemma msgPlus_locks_twice : lockRun free ops_msgPlus = None.
Proof. reflexivity. Qed.

End DataLockFacts.

(** ** What the transition function returns, over all its branches *)
Module OutcomeFacts.
Import Backend Outcomes.
Local Open Scope fsm_scope.

Lemma yields_ret (P : fsmResult -> Prop) (r : fsmResult) :
  P r -> yields P (ret r).
Proof. intros H sm r' sm' E. inversion E; subst. exact H. Qed.

Lemma yields_bind {A} (P : fsmResult -> Prop) (m : M A) (k : A -> M fsmResult) :
  (forall a, yields P (k a)) -> yields P (bind m k).
Proof.
  intros Hk sm r sm' E. unfold bind in E.
  destruct (m sm) as [[a sm1]| |]; try discriminate. exact (Hk a sm1 r sm' E).
Qed.

(** Walks every branch of [fsm]; what is left are the returned results. *)
Ltac leaves :=
  unfold fsm, impeachCommitCertificate, impeachPrepareCertificate,
    impeachCommitMsgPlus, impeachPrepareMsgPlus, composeImpeachValidateMsg;
  repeat first
    [ apply yields_ret
    | apply yields_bind; intros
    | match goal with
      | |- yields _ (if ?b then _ else _) => destruct b
      | |- yields _ (match ?x with _ => _ end) => destruct x
      end ].

Section Results.
Variable HeaderHash : Header -> Hash.
Variable service : DporService.

(** X1: A result with an error carries nothing, and the state is kept, but for
    three places: a wrong data type and an error on a commit message in
    Preprepared lead to Idle, and the answer to a faulty block carries the
    impeach block and leads to ImpeachPreprepared. *)
Theorem fsm_error_results (input : iface) (inputType : dataType)
    (msg : msgCode) (state : State) (sm sm' : DporSm) (r : fsmResult) :
  fsm HeaderHash service input inputType msg state sm = Ret (r, sm') ->
  err r <> None ->
  (carriesNothing r /\
   (next r = state \/
    (readable inputType = false /\ next r = Idle) \/
    (state = Preprepared /\ msg = commitMsgCode /\ next r = Idle))) \/
  (state = Idle /\ msg = preprepareMsgCode /\
   err r = Some errFsmFaultyBlock /\ act r = insertBlockAction /\
   outMsg r = impeachPrepareMsgCode /\ next r = ImpeachPreprepared).
Proof.
  revert sm r sm'.
  change (yields (fun r => err r <> None ->
    (carriesNothing r /\
     (next r = state \/
      (readable inputType = false /\ next r = Idle) \/
      (state = Preprepared /\ msg = commitMsgCode /\ next r = Idle))) \/
    (state = Idle /\ msg = preprepareMsgCode /\
     err r = Some errFsmFaultyBlock /\ act r = insertBlockAction /\
     outMsg r = impeachPrepareMsgCode /\ next r = ImpeachPreprepared))
    (fsm HeaderHash service input inputType msg state)).
  destruct inputType, state, msg; leaves; cbn; intros He;
    try (exfalso; apply He; reflexivity);
    unfold carriesNothing; cbn; tauto.
Qed.

(** X2: The impeach states are never left for the normal phases: from
    ImpeachPreprepared the machine never moves to Preprepared or Prepared,
    and from ImpeachPrepared it stays or moves to Idle. *)
Theorem fsm_next_state (input : iface) (inputType : dataType)
    (msg : msgCode) (state : State) (sm sm' : DporSm) (r : fsmResult) :
  fsm HeaderHash service input inputType msg state sm = Ret (r, sm') ->
  (state = ImpeachPreprepared ->
   next r <> Preprepared /\ next r <> Prepared) /\
  (state = ImpeachPrepared ->
   next r = ImpeachPrepared \/ next r = Idle).
Proof.
  revert sm r sm'.
  change (yields (fun r =>
    (state = ImpeachPreprepared ->
     next r <> Preprepared /\ next r <> Prepared) /\
    (state = ImpeachPrepared ->
     next r = ImpeachPrepared \/ next r = Idle))
    (fsm HeaderHash service input inputType msg state)).
  destruct inputType, state, msg; leaves; cbn;
    (split; intros Hs; try discriminate Hs; auto; split; discriminate).
Qed.

(** X3: What an action says about the rest of the result.  A broadcast-and-insert
    comes without error, with a block, a validate or impeach-validate code,
    and leads to Idle.  A broadcast comes without error, with one of the four
    prepare and commit codes, and never leads to Idle.  No action comes with
    no code and no output type. *)
Theorem fsm_actions (input : iface) (inputType : dataType)
    (msg : msgCode) (state : State) (sm sm' : DporSm) (r : fsmResult) :
  fsm HeaderHash service input inputType msg state sm = Ret (r, sm') ->
  match act r with
  | broadcastAndInsertBlockAction =>
      err r = None /\ dtype r = blockType /\ next r = Idle /\
      (outMsg r = validateMsgCode \/ outMsg r = impeachValidateMsgCode)
  | broadcastMsgAction =>
      err r = None /\ next r <> Idle /\
      (outMsg r = prepareMsgCode \/ outMsg r = commitMsgCode \/
       outMsg r = impeachPrepareMsgCode \/ outMsg r = impeachCommitMsgCode)
  | insertBlockAction =>
      dtype r = blockType /\
      ((err r = None /\ outMsg r = noMsgCode /\ next r = Idle) \/
       (err r = Some errFsmFaultyBlock /\ outMsg r = impeachPrepareMsgCode /\
        next r = ImpeachPreprepared))
  | noAction => dtype r = noType /\ outMsg r = noMsgCode
  end.
Proof.
  revert sm r sm'.
  change (yields (fun r =>
    match act r with
    | broadcastAndInsertBlockAction =>
        err r = None /\ dtype r = blockType /\ next r = Idle /\
        (outMsg r = validateMsgCode \/ outMsg r = impeachValidateMsgCode)
    | broadcastMsgAction =>
        err r = None /\ next r <> Idle /\
        (outMsg r = prepareMsgCode \/ outMsg r = commitMsgCode \/
         outMsg r = impeachPrepareMsgCode \/ outMsg r = impeachCommitMsgCode)
    | insertBlockAction =>
        dtype r = blockType /\
        ((err r = None /\ outMsg r = noMsgCode /\ next r = Idle) \/
         (err r = Some errFsmFaultyBlock /\ outMsg r = impeachPrepareMsgCode /\
          next r = ImpeachPreprepared))
    | noAction => dtype r = noType /\ outMsg r = noMsgCode
    end) (fsm HeaderHash service input inputType msg state)).
  destruct inputType, state, msg; leaves; cbn;
    repeat split; auto; try discriminate; tauto.
Qed.

End Results.

(** *** At concrete inputs *)
Import Sample Scenes.

(** A pre-prepare whose block the service rejects, in Idle. *)
Lemma fsm_error_results_witness :
  exists r sm',
    fsm hashOf rejecting (ptrBlock (Some (blockAt 1))) blockType
        preprepareMsgCode Idle sm1 = Ret (r, sm') /\
    err r = Some errFsmFaultyBlock /\
    next r = ImpeachPreprepared /\ act r = insertBlockAction.
Proof.
  eexists. eexists. split; [reflexivity|].
  destruct (fsm_error_results hashOf rejecting (ptrBlock (Some (blockAt 1)))
              blockType preprepareMsgCode Idle sm1 _ _ eq_refl)
    as [(_ & [H | [(H & _) | (H & _)]]) | (_ & _ & He & Ha & _ & Hn)];
    [discriminate | discriminate H | discriminate H | discriminate H | auto].
Defined.

(** A prepare message of the normal phase, in ImpeachPreprepared. *)
Lemma fsm_next_state_witness :
  exists r sm',
    fsm hashOf honest (ptrHeader (Some (headerAt 1))) headerType
        prepareMsgCode ImpeachPreprepared sm1 = Ret (r, sm') /\
    next r <> Preprepared /\ next r <> Prepared.
Proof.
  eexists. eexists. split; [reflexivity|].
  exact (proj1 (fsm_next_state hashOf honest (ptrHeader (Some (headerAt 1)))
                  headerType prepareMsgCode ImpeachPreprepared sm1 _ _ eq_refl)
               eq_refl).
Defined.

(** A pre-prepare whose block the service accepts, in Idle: the prepare
    message is broadcast. *)
Lemma fsm_actions_witness :
  exists r sm',
    fsm hashOf honest (ptrBlock (Some (blockAt 1))) blockType
        preprepareMsgCode Idle sm0 = Ret (r, sm') /\
    act r = broadcastMsgAction /\
    err r = None /\ next r <> Idle /\
    (outMsg r = prepareMsgCode \/ outMsg r = commitMsgCode \/
     outMsg r = impeachPrepareMsgCode \/ outMsg r = impeachCommitMsgCode).
Proof.
  eexists. eexists. split; [reflexivity|]. split; [reflexivity|].
  exact (fsm_actions hashOf honest (ptrBlock (Some (blockAt 1)))
           blockType preprepareMsgCode Idle sm0 _ _ eq_refl).
Defined.

End OutcomeFacts.

(** ** Heights over runs, and one prepare per height *)
Module HeightFacts.
Import Backend Statements SigState Reset.
Local Open Scope fsm_scope.

Section Heights.
Variable HeaderHash : Header -> Hash.
Variable service : DporService.


(** X5: One prepare per height.  Once composePrepareMsg has accepted a block,
    it refuses every block at that height or below with errBlockTooOld and
    leaves the machine as it is, while composeCommitMsg still signs a header
    of that very height. *)
Theorem composePrepareMsg_once_per_height (blk blk2 : Block) (hd : Header)
    (sm sm' : DporSm) (signed : option Header) :
  composePrepareMsg HeaderHash service (Some blk) sm = Ret ((signed, None), sm') ->
  Number (header blk2) <= Number (header blk) ->
  Number hd = Number (header blk) ->
  lastHeight sm < Number (header blk) /\
  composePrepareMsg HeaderHash service (Some blk2) sm'
    = Ret ((None, Some errBlockTooOld), sm') /\
  exists sm'',
    composeCommitMsg service (Some hd) sm'
      = Ret ((Some (SignHeader service hd Prepared), None), sm'') /\
    lastHeight sm'' = Number (header blk).
Proof.
  intros Hp H2 Hh.
  assert (Hlt : lastHeight sm < Number (header blk)).
  { destruct (Z.lt_ge_cases (lastHeight sm) (Number (header blk))) as [?|Hge]; [assumption|].
    destruct (Transitions.composePrepareMsg_guard HeaderHash service blk sm)
      as (r & s & Hr & Hiff).
    rewrite Hr in Hp. inversion Hp; subst r s.
    destruct Hiff as [_ Hiff]. specialize (Hiff ltac:(lia)). discriminate. }
  assert (Hl : lastHeight sm' = Number (header blk)).
  { revert Hp. unfold composePrepareMsg, deref, bind, ret, get, modify.
    destruct (Z.leb_spec (Number (header blk)) (lastHeight sm)); [lia|].
    rewrite refreshWhenNewerHeight_eq. unfold refreshed.
    destruct (Z.ltb_spec (lastHeight sm) (Number (header blk))); [|lia].
    unfold forwardSigs. cbn [prepareSigState set_bcache set_commitSigState
      set_prepareSigState set_lastHeight].
    rewrite map_to_list_empty. cbn. intros Hp. inversion Hp. reflexivity. }
  split; [exact Hlt|]. split.
  - unfold composePrepareMsg, deref, bind, ret, get.
    destruct (Z.leb_spec (Number (header blk2)) (lastHeight sm')); [reflexivity | lia].
  - destruct (Transitions.composeCommitMsg_guard service hd sm')
      as (r & s & Hr & _ & Hok).
    destruct Hok as [-> Hs]; [lia|].
    exists s. split; [exact Hr | lia].
Qed.

End Heights.

(** *** At concrete inputs *)
Import Sample Scenes.


(** The block of height 2 on a fresh machine, then the block of height 1 and
    the header of height 2. *)
Lemma composePrepareMsg_once_per_height_witness :
  exists sm',
    composePrepareMsg hashOf honest (Some (blockAt 2)) sm0
      = Ret ((Some (headerAt 2), None), sm') /\
    composePrepareMsg hashOf honest (Some (blockAt 1)) sm'
      = Ret ((None, Some errBlockTooOld), sm') /\
    exists sm'',
      composeCommitMsg honest (Some (headerAt 2)) sm'
        = Ret ((Some (headerAt 2), None), sm'') /\
      lastHeight sm'' = 2.
Proof.
  eexists.
  assert (Hr : composePrepareMsg hashOf honest (Some (blockAt 2)) sm0
               = Ret ((Some (headerAt 2), None), _)) by (vm_compute; reflexivity).
  split; [exact Hr|].
  destruct (composePrepareMsg_once_per_height hashOf honest (blockAt 2)
              (blockAt 1) (headerAt 2) sm0 _ (Some (headerAt 2)) Hr)
    as (_ & H2 & H3); [cbn; lia | reflexivity |].
  split; [exact H2 | exact H3].
Defined.

End HeightFacts.

(** ** More on the signature state *)
Module SigStateFacts.
Import Backend Statements SigState.
Local Open Scope fsm_scope.

(** 2f+1 is odd, so its 64-bit wrap-around is never 0. *)
Lemma quorum_positive (f0 : Z) : 1 <= u64 (2 * f0 + 1).
Proof.
  unfold u64, two64.
  pose proof (Z.mod_pos_bound (2 * f0 + 1) (2 ^ 64) ltac:(lia)) as Hb.
  pose proof (Z.div_mod (2 * f0 + 1) (2 ^ 64) ltac:(lia)) as Hd.
  change (2 ^ 64) with 18446744073709551616 in *. lia.
Qed.

Lemma countSigs_none (st : gmap Address blockSigItem) (h : Hash) :
  (forall a item, st !! a = Some item -> hash item <> h) -> countSigs st h = 0.
Proof.
  intros Hno. rewrite countSigs_filter.
  replace (filter (fun kv : Address * blockSigItem => hash kv.2 = h) st)
    with (∅ : gmap Address blockSigItem); [reflexivity|].
  symmetry. apply map_empty. intros a. apply map_lookup_filter_None.
  right. intros item Ha Hh. exact (Hno a item Ha Hh).
Qed.

(** A validator is counted for one digest at a time. *)
Lemma countSigs_two (st : gmap Address blockSigItem) (h1 h2 : Hash) :
  h1 <> h2 -> countSigs st h1 + countSigs st h2 <= Z.of_nat (size st).
Proof.
  intros Hne. rewrite !countSigs_filter.
  induction st as [|a item st Ha IH] using map_ind.
  - rewrite !map_filter_empty, map_size_empty. lia.
  - rewrite map_size_insert_None by exact Ha.
    assert (Hf : forall h,
      size (filter (fun kv : Address * blockSigItem => hash kv.2 = h) (<[a:=item]> st))
      = (if decide (hash item = h) then S else id)
          (size (filter (fun kv : Address * blockSigItem => hash kv.2 = h) st))).
    { intros h. destruct (decide (hash item = h)) as [Heq | Hneq].
      - rewrite map_filter_insert_True by exact Heq.
        rewrite map_size_insert_None; [reflexivity|].
        apply map_lookup_filter_None. now left.
      - rewrite map_filter_insert_not'; [reflexivity | exact Hneq |].
        intros y Hy. rewrite Ha in Hy. discriminate. }
    rewrite !Hf.
    destruct (decide (hash item = h1)), (decide (hash item = h2)); cbn [id];
      try congruence; lia.
Qed.

Section Certificates.
Variable HeaderHash : Header -> Hash.
Variable service : DporService.

(** X6: With no entry for the digest of a header, neither certificate of that
    header holds, whatever [f] is: right after a reset nothing is certified. *)
Theorem no_certificate_without_entry (hd : Header) (sm : DporSm) :
  ((forall a item, prepareSigState sm !! a = Some item ->
                   hash item <> HeaderHash hd) ->
   prepareCertificate HeaderHash (Some hd) sm = Ret (false, sm)) /\
  ((forall a item, commitSigState sm !! a = Some item ->
                   hash item <> HeaderHash hd) ->
   commitCertificate HeaderHash (Some hd) sm = Ret (false, sm)).
Proof.
  pose proof (quorum_positive (f sm)) as Hq.
  split; intros Hno;
    unfold prepareCertificate, commitCertificate, deref, bind, ret, get;
    rewrite (countSigs_none _ _ Hno);
    destruct (Z.leb_spec (u64 (2 * f sm + 1)) 0); [lia | reflexivity | lia | reflexivity].
Qed.

(** X7: Two headers with different digests hold a certificate of the same phase
    at the same time only if that phase has entries for two quorums. *)
Theorem two_certificates_two_quorums (hd1 hd2 : Header) (sm : DporSm) :
  HeaderHash hd1 <> HeaderHash hd2 ->
  (prepareCertificate HeaderHash (Some hd1) sm = Ret (true, sm) ->
   prepareCertificate HeaderHash (Some hd2) sm = Ret (true, sm) ->
   2 * u64 (2 * f sm + 1) <= Z.of_nat (size (prepareSigState sm))) /\
  (commitCertificate HeaderHash (Some hd1) sm = Ret (true, sm) ->
   commitCertificate HeaderHash (Some hd2) sm = Ret (true, sm) ->
   2 * u64 (2 * f sm + 1) <= Z.of_nat (size (commitSigState sm))).
Proof.
  intros Hne.
  split; intros H1 H2;
    unfold prepareCertificate, commitCertificate, deref, bind, ret, get in H1, H2;
    inversion H1 as [E1]; inversion H2 as [E2];
    apply Z.leb_le in E1; apply Z.leb_le in E2.
  - pose proof (countSigs_two (prepareSigState sm) _ _ Hne). lia.
  - pose proof (countSigs_two (commitSigState sm) _ _ Hne). lia.
Qed.


End Certificates.

(** *** At concrete inputs *)
Import Sample Scenes.

(** With f = 0, one entry for each of two headers certifies both. *)
Lemma two_certificates_two_quorums_witness :
  hashOf (headerAt 1) <> hashOf (headerAt 2) /\
  prepareCertificate hashOf (Some (headerAt 1)) smSplit = Ret (true, smSplit) /\
  prepareCertificate hashOf (Some (headerAt 2)) smSplit = Ret (true, smSplit) /\
  2 * u64 (2 * f smSplit + 1) <= Z.of_nat (size (prepareSigState smSplit)).
Proof.
  assert (Hne : hashOf (headerAt 1) <> hashOf (headerAt 2)) by discriminate.
  split; [exact Hne|]. split; [reflexivity|]. split; [reflexivity|].
  exact (proj1 (two_certificates_two_quorums hashOf (headerAt 1) (headerAt 2)
                  smSplit Hne) eq_refl eq_refl).
Defined.


End SigStateFacts.

(** ** What the sig-plus operations write *)
Module ComposeFacts.
Import Backend Statements SigState.
Local Open Scope fsm_scope.



Section Plus.
Variable HeaderHash : Header -> Hash.
Variable service : DporService.




End Plus.

(** *** At concrete inputs *)
Import Sample Scenes.



End ComposeFacts.

(** ** composeValidateMsg and composePrepareMsg *)
Module ValidateFacts.
Import Backend Statements Outcomes SigState.
Local Open Scope fsm_scope.

Lemma makeUpSigs_returns (h : Hash) (commit : gmap Address blockSigItem)
    (validators : list Address) :
  forall (k : nat) (slots : list DporSignature),
    (forall j v, validators !! j = Some v ->
       exists s, slots !! (k + j)%nat = Some s /\
                 (IsEmpty s = true -> is_Some (commit !! v))) ->
    exists slots',
      makeUpSigs h commit validators k slots = Ret slots' /\
      length slots' = length slots /\
      (forall i, (i < k)%nat -> slots' !! i = slots !! i) /\
      (forall i, (k + length validators <= i)%nat -> slots' !! i = slots !! i) /\
      (forall j v s, validators !! j = Some v -> slots !! (k + j)%nat = Some s ->
         slots' !! (k + j)%nat = Some (madeUp h commit v s)).
Proof.
  induction validators as [|v0 rest IH]; intros k slots Hok.
  - exists slots. cbn. repeat split; auto. intros j v s Hj. rewrite lookup_nil in Hj. discriminate.
  - destruct (Hok 0%nat v0 eq_refl) as (s0 & Hs0 & He0).
    rewrite Nat.add_0_r in Hs0.
    set (slots1 := <[k := madeUp h commit v0 s0]> slots).
    assert (Hstep : makeUpSigs h commit (v0 :: rest) k slots
                    = makeUpSigs h commit rest (S k) slots1).
    { cbn [makeUpSigs]. rewrite Hs0. unfold slots1, madeUp.
      destruct (IsEmpty s0) eqn:E.
      - destruct (He0 eq_refl) as [st Hst]. rewrite Hst.
        destruct (hash st =? h)%N; [reflexivity|].
        now rewrite list_insert_id.
      - now rewrite list_insert_id. }
    assert (Hk : (k < length slots)%nat) by (now apply lookup_lt_Some in Hs0).
    destruct (IH (S k) slots1) as (slots' & Hr & Hlen & Hlow & Hhigh & Hmid).
    { intros j v Hj. destruct (Hok (S j) v Hj) as (s & Hs & He).
      exists s. split; [|exact He]. unfold slots1.
      rewrite list_lookup_insert_ne by lia.
      now replace (S k + j)%nat with (k + S j)%nat by lia. }
    exists slots'. rewrite Hstep. split; [exact Hr|].
    split; [unfold slots1 in Hlen; now rewrite length_insert in Hlen|].
    split; [|split].
    + intros i Hi. rewrite Hlow by lia. unfold slots1.
      now rewrite list_lookup_insert_ne by lia.
    + intros i Hi. cbn [length] in Hi. rewrite Hhigh by lia. unfold slots1.
      now rewrite list_lookup_insert_ne by lia.
    + intros j v s Hj Hs. destruct j as [|j].
      * cbn in Hj. inversion Hj; subst v. rewrite Nat.add_0_r in *.
        rewrite Hs0 in Hs. inversion Hs; subst s.
        rewrite Hlow by lia. unfold slots1. now apply list_lookup_insert_eq.
      * cbn in Hj. replace (k + S j)%nat with (S k + j)%nat in * by lia.
        apply Hmid; [exact Hj|]. unfold slots1.
        now rewrite list_lookup_insert_ne by lia.
Qed.

Lemma makeUpSigs_needs (h : Hash) (commit : gmap Address blockSigItem)
    (validators : list Address) :
  forall (k : nat) (slots slots' : list DporSignature),
    makeUpSigs h commit validators k slots = Ret slots' ->
    forall j v, validators !! j = Some v ->
      exists s, slots !! (k + j)%nat = Some s /\
                (IsEmpty s = true -> is_Some (commit !! v)).
Proof.
  induction validators as [|v0 rest IH]; intros k slots slots' Hr j v Hj.
  - rewrite lookup_nil in Hj. discriminate.
  - cbn [makeUpSigs] in Hr.
    destruct (slots !! k) as [s0|] eqn:Hs0; [|discriminate].
    assert (Hnext : exists slots1, makeUpSigs h commit rest (S k) slots1 = Ret slots'
              /\ (forall i, i <> k -> slots1 !! i = slots !! i)
              /\ (IsEmpty s0 = true -> is_Some (commit !! v0))).
    { destruct (IsEmpty s0).
      - destruct (commit !! v0) as [st|]; [|discriminate].
        destruct (hash st =? h)%N.
        + eexists. split; [exact Hr|]. split; [|eauto].
          intros i Hi. now rewrite list_lookup_insert_ne by auto.
        + eexists. split; [exact Hr|]. split; eauto.
      - eexists. split; [exact Hr|]. split; [auto | discriminate]. }
    destruct Hnext as (slots1 & Hr1 & Hsame & He0).
    destruct j as [|j].
    + cbn in Hj. inversion Hj; subst v. rewrite Nat.add_0_r. eauto.
    + cbn in Hj. destruct (IH _ _ _ Hr1 j v Hj) as (s & Hs & He).
      exists s. split; [|exact He].
      replace (k + S j)%nat with (S k + j)%nat by lia.
      rewrite <- Hsame by lia. exact Hs.
Qed.

(** Reading back what was written through the cached pointer. *)
Lemma cacheGet_cacheStore (c : blockCache) (k : Hash) (b b' : Block) :
  cacheGet c k = Some b -> cacheGet (cacheStore k b' c) k = Some b'.
Proof.
  unfold cacheGet, cacheStore. induction c as [|[k0 b0] c IH]; cbn; [discriminate|].
  destruct (N.eqb_spec k0 k) as [-> | Hne].
  - intros _. cbn. now rewrite N.eqb_refl.
  - intros H. cbn. destruct (N.eqb_spec k0 k); [contradiction|]. now apply IH.
Qed.

Lemma cacheGet_cacheAdd (c : blockCache) (k : Hash) (b : Block) :
  cacheGet (cacheAdd k b c) k = Some b.
Proof. unfold cacheGet, cacheAdd. cbn. now rewrite N.eqb_refl. Qed.

Section Validate.
Variable HeaderHash : Header -> Hash.
Variable service : DporService.

(** X12: composeValidateMsg returns a block exactly when the block of the header
    is in the cache, the cached block has a slot for every validator of the
    header, and every validator whose slot is empty has a commit-state
    entry. *)
Theorem composeValidateMsg_returns_iff (hd : Header) (sm : DporSm) :
  (exists b sm', composeValidateMsg HeaderHash (Some hd) sm
                 = Ret ((Some b, None), sm')) <->
  (exists theBlock,
     cacheGet (bcache sm) (HeaderHash hd) = Some theBlock /\
     canMakeUp (commitSigState sm) (Validators (Dpor hd))
               (Sigs (Dpor (header theBlock)))).
Proof.
  unfold composeValidateMsg, deref, bind, ret, get, modify, panic.
  destruct (cacheGet (bcache sm) (HeaderHash hd)) as [theBlock|].
  - split.
    + intros (b & sm' & H).
      destruct (makeUpSigs _ _ _ _ _) as [slots'| |] eqn:Hm; try discriminate.
      exists theBlock. split; [reflexivity|]. intros j v Hj.
      exact (makeUpSigs_needs _ _ _ _ _ _ Hm j v Hj).
    + intros (b0 & Hb & Hok). inversion Hb; subst b0.
      destruct (makeUpSigs_returns (HeaderHash hd) (commitSigState sm)
                  (Validators (Dpor hd)) 0 (Sigs (Dpor (header theBlock))) Hok)
        as (slots' & Hr & _).
      rewrite Hr. eauto.
  - split.
    + intros (b & sm' & H). discriminate.
    + intros (b & Hb & _). discriminate.
Qed.

(** X13: What composeValidateMsg returns: the cached block with its signature
    slots made up.  The number of slots is kept; a filled slot is never
    overwritten; an empty slot of a validator whose commit-state entry is for
    this header takes the recorded signature; the block read back from the
    cache afterwards is the returned one; nothing else in the machine
    changes. *)
Theorem composeValidateMsg_makes_up (hd : Header) (sm sm' : DporSm) (b : Block) :
  composeValidateMsg HeaderHash (Some hd) sm = Ret ((Some b, None), sm') ->
  exists theBlock,
    cacheGet (bcache sm) (HeaderHash hd) = Some theBlock /\
    b = withSigs theBlock (Sigs (Dpor (header b))) /\
    length (Sigs (Dpor (header b))) = length (Sigs (Dpor (header theBlock))) /\
    (forall j v s,
       Validators (Dpor hd) !! j = Some v ->
       Sigs (Dpor (header theBlock)) !! j = Some s ->
       Sigs (Dpor (header b)) !! j
         = Some (madeUp (HeaderHash hd) (commitSigState sm) v s)) /\
    (forall j s, Sigs (Dpor (header theBlock)) !! j = Some s ->
       IsEmpty s = false -> Sigs (Dpor (header b)) !! j = Some s) /\
    cacheGet (bcache sm') (HeaderHash hd) = Some b /\
    sm' = set_bcache (bcache sm') sm.
Proof.
  unfold composeValidateMsg, deref, bind, ret, get, modify, panic.
  destruct (cacheGet (bcache sm) (HeaderHash hd)) as [theBlock|] eqn:Hget;
    [|discriminate].
  destruct (makeUpSigs _ _ _ _ _) as [slots'| |] eqn:Hm; try discriminate.
  intros H. inversion H; subst b sm'. clear H.
  exists theBlock. split; [reflexivity|].
  destruct (makeUpSigs_returns (HeaderHash hd) (commitSigState sm)
              (Validators (Dpor hd)) 0 (Sigs (Dpor (header theBlock))))
    as (slots2 & Hr & Hlen & _ & Hhigh & Hmid).
  { intros j v Hj. exact (makeUpSigs_needs _ _ _ _ _ _ Hm j v Hj). }
  rewrite Hm in Hr. inversion Hr; subst slots2. cbn.
  split; [reflexivity|]. split; [exact Hlen|]. split; [|split; [|split]].
  - intros j v s Hj Hs. exact (Hmid j v s Hj Hs).
  - intros j s Hs He.
    destruct (Validators (Dpor hd) !! j) as [v|] eqn:Hj.
    + pose proof (Hmid j v s Hj Hs) as Hx. cbn in Hx. rewrite Hx.
      unfold madeUp. now rewrite He.
    + apply lookup_ge_None in Hj. rewrite Hhigh by (cbn; lia). exact Hs.
  - now apply (cacheGet_cacheStore _ _ theBlock).
  - reflexivity.
Qed.

(** X14: composePrepareMsg, when it accepts the block: the last-seen height is
    the block's, both signature maps are empty, the header handed back is
    the signed one, and the signed block can be read from the cache under
    the digest the block had. *)
Theorem composePrepareMsg_accepts (blk : Block) (sm : DporSm) :
  lastHeight sm < Number (header blk) ->
  exists sm',
    composePrepareMsg HeaderHash service (Some blk) sm
      = Ret ((Some (SignHeader service (header blk) Preprepared), None), sm') /\
    lastHeight sm' = Number (header blk) /\
    prepareSigState sm' = ∅ /\ commitSigState sm' = ∅ /\
    cacheGet (bcache sm') (HeaderHash (header blk))
      = Some (withHeader blk (SignHeader service (header blk) Preprepared)).
Proof.
  intros Hlt. unfold composePrepareMsg, deref, bind, ret, get, modify.
  destruct (Z.leb_spec (Number (header blk)) (lastHeight sm)); [lia|].
  rewrite refreshWhenNewerHeight_eq. unfold refreshed.
  destruct (Z.ltb_spec (lastHeight sm) (Number (header blk))); [|lia].
  unfold forwardSigs. cbn [prepareSigState set_bcache set_commitSigState
    set_prepareSigState set_lastHeight].
  rewrite map_to_list_empty. cbn.
  eexists. split; [reflexivity|]. cbn.
  repeat split.
  unfold BlockHash. rewrite !N.eqb_refl. cbn [fst]. rewrite ?N.eqb_refl.
  reflexivity.
Qed.

End Validate.

(** *** At concrete inputs *)
Import Sample Scenes.

(** The cached block of height 4 with two empty slots: the slot of [v1],
    recorded for this block, is filled; that of [v2], recorded for another
    block, stays empty. *)
Lemma composeValidateMsg_makes_up_witness :
  exists b sm',
    composeValidateMsg hashOf (Some (headerAt 4)) smCachedCommitted
      = Ret ((Some b, None), sm') /\
    Sigs (Dpor (header b)) = [sig1; 0%N] /\
    cacheGet (bcache sm') (hashOf (headerAt 4)) = Some b.
Proof.
  eexists. eexists.
  assert (Hr : composeValidateMsg hashOf (Some (headerAt 4)) smCachedCommitted
               = Ret ((Some _, None), _)) by (vm_compute; reflexivity).
  split; [exact Hr|]. split; [reflexivity|].
  destruct (composeValidateMsg_makes_up hashOf (headerAt 4) smCachedCommitted
              _ _ Hr) as (tb & _ & _ & _ & _ & _ & Hc & _).
  exact Hc.
Defined.

(** The block of height 1 on a fresh machine. *)
Lemma composePrepareMsg_accepts_witness :
  lastHeight sm0 < Number (header (blockAt 1)) /\
  exists sm',
    composePrepareMsg hashOf honest (Some (blockAt 1)) sm0
      = Ret ((Some (SignHeader honest (header (blockAt 1)) Preprepared), None), sm') /\
    lastHeight sm' = 1.
Proof.
  assert (Hlt : lastHeight sm0 < Number (header (blockAt 1))) by reflexivity.
  split; [exact Hlt|].
  destruct (composePrepareMsg_accepts hashOf honest (blockAt 1) sm0 Hlt)
    as (sm' & Hr & Hl & _).
  exists sm'. split; [exact Hr | exact Hl].
Defined.

End ValidateFacts.

(** ** More on the election *)
Module ElectionMore.
Import Election ElectionStatements ElectionFacts.

Lemma i64_idem (a b : Z) : i64 (i64 a + b) = i64 (a + b).
Proof.
  unfold i64, two64.
  f_equal.
  replace ((a + 2 ^ 63) mod 2 ^ 64 - 2 ^ 63 + b + 2 ^ 63)
    with ((a + 2 ^ 63) mod 2 ^ 64 + b) by lia.
  rewrite Zplus_mod_idemp_l. f_equal. lia.
Qed.

Lemma sumOfFirstNFrom_spec (rpts : RptList) :
  forall (acc : Z),
    let '(sums, sum) := sumOfFirstNFrom acc rpts in
    length sums = length rpts /\
    sum = match rpts with
          | [] => acc
          | _ => i64 (acc + foldr Z.add 0 (Score <$> rpts))
          end /\
    forall i, (i < length rpts)%nat ->
      sums !! i = Some (i64 (acc + foldr Z.add 0 (Score <$> take (S i) rpts))).
Proof.
  induction rpts as [|r rest IH]; intros acc; cbn [sumOfFirstNFrom].
  - repeat split; auto. cbn. intros i Hi. lia.
  - specialize (IH (i64 (acc + Score r))).
    destruct (sumOfFirstNFrom (i64 (acc + Score r)) rest) as [sums sum].
    destruct IH as (Hlen & Hsum & Hi).
    split; [cbn; now rewrite Hlen|]. split.
    + rewrite Hsum. destruct rest as [|r' rest']; cbn.
      * now rewrite Z.add_0_r.
      * rewrite i64_idem. f_equal. lia.
    + intros i Hlt. destruct i as [|i].
      * cbn. now rewrite Z.add_0_r.
      * cbn [length] in Hlt.
        change ((i64 (acc + Score r) :: sums) !! S i) with (sums !! i).
        rewrite (Hi i) by lia. rewrite i64_idem. f_equal. f_equal.
        cbn. lia.
Qed.

(** X15: sumOfFirstN: one running sum per candidate, each the exact sum of the
    scores so far wrapped to 64 bits, and the total is the last of them
    (0 for no candidate). *)
Theorem sumOfFirstN_prefix_sums (rpts : RptList) :
  length (sumOfFirstN rpts).1 = length rpts /\
  (sumOfFirstN rpts).2 = i64 (prefixSum rpts (length rpts)) /\
  (sumOfFirstN rpts).2 = default 0 (last (sumOfFirstN rpts).1) /\
  forall i, (i < length rpts)%nat ->
    (sumOfFirstN rpts).1 !! i = Some (i64 (prefixSum rpts (S i))).
Proof.
  unfold sumOfFirstN, prefixSum.
  pose proof (sumOfFirstNFrom_spec rpts 0) as H.
  destruct (sumOfFirstNFrom 0 rpts) as [sums sum]. cbn [fst snd].
  destruct H as (Hlen & Hsum & Hi).
  assert (Hs : sum = i64 (foldr Z.add 0 (Score <$> take (length rpts) rpts))).
  { rewrite firstn_all, Hsum. destruct rpts; reflexivity. }
  split; [exact Hlen|]. split; [exact Hs|]. split.
  - rewrite last_lookup, Hlen.
    destruct rpts as [|r rest]; [cbn in *; destruct sums; [now subst | discriminate]|].
    cbn [length Nat.pred]. rewrite Hi by (cbn; lia). cbn [default].
    exact Hs.
  - intros i Hlt. now rewrite Hi.
Qed.

Lemma findHitFrom_spec (hit : Z) (hitSums : list Z) :
  forall (idx : Z),
    match findHitFrom idx hit hitSums with
    | Some r =>
        exists j x, r = idx + Z.of_nat j /\ hitSums !! j = Some x /\ hit <= x /\
                    forall k y, (k < j)%nat -> hitSums !! k = Some y -> y < hit
    | None => forall y, y ∈ hitSums -> y < hit
    end.
Proof.
  induction hitSums as [|x rest IH]; intros idx; cbn [findHitFrom].
  - intros y Hy. inversion Hy.
  - destruct (Z.leb_spec hit x) as [Hle | Hgt].
    + exists 0%nat, x. repeat split; [lia | exact Hle |]. intros k y Hk. lia.
    + specialize (IH (idx + 1)). destruct (findHitFrom (idx + 1) hit rest).
      * destruct IH as (j & x' & -> & Hj & Hle & Hbefore).
        exists (S j), x'. repeat split; [lia | exact Hj | exact Hle |].
        intros k y Hk Hy. destruct k as [|k]; cbn in Hy.
        -- inversion Hy; subst. lia.
        -- apply (Hbefore k y); [lia | exact Hy].
      * intros y Hy. apply elem_of_cons in Hy as [-> | Hy]; [lia | auto].
Qed.

(** X16: findHit returns the first index whose running sum is at least [hit];
    when there is none it returns the last index, which is -1 for an empty
    list.  So for a non-empty list the index is always in range. *)
Theorem findHit_first_at_least (hit : Z) (hitSums : list Z) :
  let idx := findHit hit hitSums in
  - 1 <= idx < Z.of_nat (length hitSums) /\
  (hitSums <> [] -> 0 <= idx) /\
  ((exists x, index hitSums idx = Some x /\ hit <= x /\
      forall k y, (Z.of_nat k < idx) -> hitSums !! k = Some y -> y < hit) \/
   (idx = Z.of_nat (length hitSums) - 1 /\ forall y, y ∈ hitSums -> y < hit)).
Proof.
  unfold findHit. pose proof (findHitFrom_spec hit hitSums 0) as H.
  destruct (findHitFrom 0 hit hitSums) as [r|].
  - destruct H as (j & x & -> & Hj & Hle & Hbefore).
    pose proof (lookup_lt_Some _ _ _ Hj) as Hlt. cbn.
    split; [lia|]. split; [lia|]. left. exists x.
    split; [|split; [exact Hle|]].
    + unfold index. rewrite ?Z.add_0_l.
      destruct (Z.ltb_spec (Z.of_nat j) 0); [lia|].
      now rewrite Nat2Z.id.
    + intros k y Hk. apply Hbefore. lia.
  - cbn. split; [lia|]. split.
    + intros Hne. destruct hitSums; [contradiction | cbn; lia].
    + right. split; [reflexivity | exact H].
Qed.

Section Guard.
Variable sortRpts : RptList -> RptList.
Variable Rand : Type.
Variable newRand : Z -> Rand.
Variable Int63n : Rand -> Z -> Z * Rand.


(** X17: The checks do not look at signs: negative counts that pass them make
    Elect2 panic on the slice [rpts[:lowRptCount]]. *)
Theorem Elect2_negative_count_panics (fuel : nat) (rpts : RptList) (seed : Z)
    (totalSeats lowRptCount lowRptSeats : Z) :
  lowRptSeats <= lowRptCount -> lowRptCount < 0 ->
  lowRptSeats <= totalSeats -> totalSeats <= Z.of_nat (length rpts) ->
  Elect2 sortRpts newRand Int63n fuel rpts seed totalSeats lowRptCount lowRptSeats
  = Panic indexOutOfRange.
Proof.
  intros H1 H2 H3 H4. unfold Elect2.
  destruct (Z.ltb_spec (Z.of_nat (length rpts)) lowRptCount); [lia|].
  destruct (Z.ltb_spec totalSeats lowRptSeats); [lia|].
  destruct (Z.ltb_spec (Z.of_nat (length rpts)) totalSeats); [lia|].
  destruct (Z.ltb_spec lowRptCount lowRptSeats); [lia|].
  cbn [orb]. destruct (Z.ltb_spec lowRptCount 0); [reflexivity | lia].
Qed.

End Guard.

Lemma index_Some {A} (l : list A) (i : Z) (x : A) :
  index l i = Some x -> 0 <= i < Z.of_nat (length l) /\ x ∈ l.
Proof.
  unfold index. destruct (Z.ltb_spec i 0) as [Hneg | Hpos]; [discriminate|].
  intros Hx. split; [|now apply list_elem_of_lookup_2 in Hx].
  apply lookup_lt_Some in Hx. lia.
Qed.


Section Returns.
Variable sortRpts : RptList -> RptList.
Variable Rand : Type.
Variable newRand : Z -> Rand.
Variable Int63n : Rand -> Z -> Z * Rand.
Hypothesis sort_perm : forall l, sortRpts l ≡ₚ l.




End Returns.

Lemma sumOfFirstN_length (rpts : RptList) :
  length (sumOfFirstN rpts).1 = length rpts.
Proof.
  unfold sumOfFirstN. pose proof (sumOfFirstNFrom_spec rpts 0) as H.
  destruct (sumOfFirstNFrom 0 rpts) as [sums sum]. now destruct H as (Hlen & _).
Qed.

Lemma findHit_in_range (hit : Z) (hitSums : list Z) :
  hitSums <> [] -> 0 <= findHit hit hitSums < Z.of_nat (length hitSums).
Proof.
  intros Hne. unfold findHit. pose proof (findHitFrom_spec hit hitSums 0) as H.
  destruct (findHitFrom 0 hit hitSums) as [r|].
  - destruct H as (j & x & -> & Hj & _). apply lookup_lt_Some in Hj. lia.
  - destruct hitSums; [contradiction | cbn [length]; lia].
Qed.

Section OneSeat.
Variable sortRpts : RptList -> RptList.
Variable Rand : Type.
Variable Int63n : Rand -> Z -> Z * Rand.

(** X21: One seat is filled with one draw: when the total of the partition is
    positive, randomSelectByRpt with one seat returns one candidate of the
    sorted partition after a single call of Int63n, whatever that call
    returns. *)
Theorem randomSelectByRpt_one_seat (fuel : nat) (rpts : RptList) (myRand : Rand) :
  0 < (sumOfFirstN (sortRpts rpts)).2 ->
  exists r,
    r ∈ sortRpts rpts /\
    randomSelectByRpt sortRpts Int63n (S fuel) rpts myRand 1
    = Ret ([Addr r], (Int63n myRand (sumOfFirstN (sortRpts rpts)).2).2).
Proof.
  intros Hpos. unfold randomSelectByRpt.
  pose proof (sumOfFirstN_length (sortRpts rpts)) as Hlen.
  destruct (sumOfFirstN (sortRpts rpts)) as [sums sum] eqn:Hs. cbn [fst snd] in *.
  cbn [selectLoop]. cbn [Z.leb Z.compare].
  destruct (Z.leb_spec sum 0); [lia|].
  destruct (Int63n myRand sum) as [randI myRand'] eqn:Hd. cbn [snd].
  rewrite bool_decide_eq_false_2 by apply not_elem_of_empty.
  assert (Hne : sums <> []).
  { intros ->. unfold sumOfFirstN in Hs. destruct (sortRpts rpts); [|discriminate Hlen].
    cbn in Hs. inversion Hs. lia. }
  pose proof (findHit_in_range randI sums Hne) as Hr.
  set (idx := findHit randI sums) in *.
  assert (Hidx : exists r, index (sortRpts rpts) idx = Some r).
  { unfold index. destruct (Z.ltb_spec idx 0); [lia|].
    apply lookup_lt_is_Some_2. lia. }
  destruct Hidx as [r Hidx]. rewrite Hidx.
  exists r. split; [now apply index_Some in Hidx|].
  change (i64 (1 - 1)) with 0.
  destruct fuel; reflexivity.
Qed.

End OneSeat.

(** *** At concrete inputs *)
Import Scenes.

(** No candidate, no seat, and a low partition of size -1 with -1 seats. *)
Lemma Elect2_negative_count_panics_witness :
  Elect2 sortByScore lcgNew lcgInt63n 10 [] 42 0 (-1) (-1)
  = Panic indexOutOfRange.
Proof.
  apply (Elect2_negative_count_panics sortByScore Z lcgNew lcgInt63n 10 [] 42
           0 (-1) (-1)); cbn; lia.
Defined.




(** One seat among the three candidates, with the generator at 42. *)
Lemma randomSelectByRpt_one_seat_witness :
  0 < (sumOfFirstN (sortByScore three)).2 /\
  exists r,
    r ∈ sortByScore three /\
    randomSelectByRpt sortByScore lcgInt63n 1 three 42 1
    = Ret ([Addr r], (lcgInt63n 42 (sumOfFirstN (sortByScore three)).2).2).
Proof.
  assert (Hp : 0 < (sumOfFirstN (sortByScore three)).2) by reflexivity.
  split; [exact Hp|].
  exact (randomSelectByRpt_one_seat sortByScore Z lcgInt63n 0 three 42 Hp).
Defined.

End ElectionMore.

(** ** More on funding *)
Module FundingFacts.
Import Admission FundingEvents.

Section Fund.
Variable RNodeMinFundReq : Z.
Variable Cpc : Z.

Local Abbreviation FundForRNode := (Admission.FundForRNode RNodeMinFundReq Cpc).
Local Abbreviation minRnodeFund := (RNodeMinFundReq * Cpc).

(** The controller after a JoinRnode transaction [tx] has been sent. *)
Local Abbreviation sent ac tx :=
  {| address := address ac; key := key ac;
     contractBackend := contractBackend ac; sendingFund := 1;
     joinTxs := joinTxs ac ++ [tx]; watchers := watchers ac ++ [tx] |}.

Lemma FundForRNode_cases (ac ac' : AdmissionControl) (r : option error) :
  FundForRNode ac = Ret (r, ac') ->
  ac' = ac \/
  (r = None /\ sendingFund ac = 0 /\
   (JoinRnode (contractBackend ac) minRnodeFund).2 = None /\
   ac' = sent ac (JoinRnode (contractBackend ac) minRnodeFund).1).
Proof.
  unfold Admission.FundForRNode. intros H.
  destruct (Z.eqb_spec (sendingFund ac) 0) as [H0 | H0]; cbn [negb] in H;
    [|inversion H; now left].
  destruct (NewRnode (contractBackend ac)); [inversion H; now left|].
  destruct (IsRnode (contractBackend ac) (address ac)) as [isR [e|]];
    [inversion H; now left|].
  destruct isR; [inversion H; now left|].
  destruct (BalanceAt (contractBackend ac) (address ac)) as [bal|]; [|discriminate].
  destruct (minRnodeFund <=? bal); [|inversion H; now left].
  destruct (key ac); [|discriminate].
  destruct (JoinRnode (contractBackend ac) minRnodeFund) as [tx [e|]];
    [inversion H; now left|].
  inversion H; subst. right. auto.
Qed.

(** X22: FundForRNode changes the controller in one case only: the flag was
    clear and JoinRnode went through; then it returns nil, the flag is 1, and
    one transaction and one watcher are added.  Whenever it returns an error,
    nothing has changed: no transaction was sent, no watcher started, the
    flag is as it was. *)
Theorem FundForRNode_changes_only_when_sent (ac ac' : AdmissionControl)
    (r : option error) :
  FundForRNode ac = Ret (r, ac') ->
  (r <> None -> ac' = ac) /\
  (ac' = ac \/
   (r = None /\ sendingFund ac = 0 /\
    (JoinRnode (contractBackend ac) minRnodeFund).2 = None /\
    ac' = sent ac (JoinRnode (contractBackend ac) minRnodeFund).1)).
Proof.
  intros H. pose proof (FundForRNode_cases ac ac' r H) as Hc.
  split; [|exact Hc].
  intros Hr. destruct Hc as [-> | (-> & _)]; [reflexivity | contradiction].
Qed.

(** X23: When the watcher returns before the node has become an RNode, the next
    call sends JoinRnode a second time. *)
Theorem FundForRNode_sends_again_after_watcher (ac ac1 : AdmissionControl)
    (r : option error) (tx : Hash) :
  sendingFund ac = 0 ->
  FundForRNode ac = Ret (r, ac1) ->
  sendingFund ac1 <> 0 ->
  exists ac2,
    FundForRNode (waitForTxDone tx ac1) = Ret (None, ac2) /\
    sendingFund ac2 = 1 /\
    length (joinTxs ac2) = (length (joinTxs ac) + 2)%nat.
Proof.
  intros H0 H H1. unfold Admission.FundForRNode in *.
  rewrite H0 in H. cbn [Z.eqb negb] in H.
  cbn [sendingFund waitForTxDone Z.eqb negb contractBackend address key].
  destruct (NewRnode (contractBackend ac)) eqn:E1;
    [inversion H; subst; contradiction|].
  destruct (IsRnode (contractBackend ac) (address ac)) as [isR [e|]] eqn:E2;
    [inversion H; subst; contradiction|].
  destruct isR; [inversion H; subst; contradiction|].
  destruct (BalanceAt (contractBackend ac) (address ac)) as [bal|] eqn:E3;
    [|discriminate].
  destruct (minRnodeFund <=? bal) eqn:E4;
    [|inversion H; subst; contradiction].
  destruct (key ac) eqn:E5; [|discriminate].
  destruct (JoinRnode (contractBackend ac) minRnodeFund) as [tx1 [e|]] eqn:E6;
    [inversion H; subst; contradiction|].
  inversion H; subst ac1 r. cbn.
  rewrite ?E1, ?E2, ?E3, ?E4, ?E5, ?E6.
  eexists. split; [reflexivity|]. cbn. split; [reflexivity|].
  rewrite !length_app. cbn. lia.
Qed.

Local Abbreviation fundStep := (FundingEvents.fundStep RNodeMinFundReq Cpc).
Local Abbreviation fundRun := (FundingEvents.fundRun RNodeMinFundReq Cpc).

Lemma fundStep_invariant (ev : event) (ac ac' : AdmissionControl) :
  flagMatchesWatcher ac ->
  fundStep ev ac = Ret ac' ->
  flagMatchesWatcher ac' /\
  Z.of_nat (length (joinTxs ac')) + mayStillSend ac'
    <= Z.of_nat (length (joinTxs ac)) + mayStillSend ac
       + (if isDone ev then 1 else 0).
Proof.
  intros Hinv H. destruct ev as [|tx]; cbn [FundingEvents.fundStep isDone] in *.
  - destruct (FundForRNode ac) as [[r ac1]| |] eqn:E; try discriminate.
    inversion H; subst ac1.
    destruct (FundForRNode_cases _ _ _ E)
      as [-> | (_ & H0 & _ & ->)]; [split; [exact Hinv | lia]|].
    destruct Hinv as [[_ Hw] | [H1 _]]; [|lia].
    split.
    + right. cbn. rewrite Hw. eauto.
    + unfold mayStillSend. cbn. rewrite H0, length_app. cbn. lia.
  - destruct (bool_decide (tx ∈ watchers ac)) eqn:Hin;
      inversion H; subst ac'; [|split; [exact Hinv | lia]].
    apply bool_decide_eq_true in Hin.
    destruct Hinv as [[_ Hw] | [H1 [tx0 Hw]]];
      [rewrite Hw in Hin; inversion Hin|].
    rewrite Hw in Hin. apply list_elem_of_singleton in Hin. subst tx0.
    split.
    + left. cbn. rewrite Hw. cbn. now rewrite N.eqb_refl.
    + unfold mayStillSend. cbn. rewrite H1. cbn. lia.
Qed.

(** X24: Over any sequence of calls and watcher returns, starting with the flag
    clear and no watcher: the flag is set exactly while one watcher runs, at
    most one watcher runs at a time, and the number of JoinRnode transactions
    sent is at most one more than the number of watcher returns. *)
Theorem funding_one_watcher_at_a_time (evs : list event)
    (ac ac' : AdmissionControl) :
  flagMatchesWatcher ac ->
  fundRun evs ac = Ret ac' ->
  flagMatchesWatcher ac' /\
  Z.of_nat (length (joinTxs ac')) + mayStillSend ac'
    <= Z.of_nat (length (joinTxs ac)) + mayStillSend ac
       + Z.of_nat (length (List.filter isDone evs)).
Proof.
  revert ac. induction evs as [|ev rest IH]; intros ac Hinv H.
  - inversion H; subst. split; [exact Hinv | cbn; lia].
  - cbn [FundingEvents.fundRun] in H.
    destruct (fundStep ev ac) as [ac1| |] eqn:E; try discriminate.
    destruct (fundStep_invariant ev ac ac1 Hinv E) as [Hinv1 Hle1].
    destruct (IH ac1 Hinv1 H) as [Hinv' Hle'].
    split; [exact Hinv'|]. cbn [List.filter].
    destruct (isDone ev); cbn [length] in *; lia.
Qed.

End Fund.

(** *** At concrete inputs *)

(** The first call of a node that can pay. *)
Lemma FundForRNode_changes_only_when_sent_witness :
  Admission.FundForRNode 200000 (10 ^ 18) candidate = Ret (None, candidateSent) /\
  sendingFund candidate = 0 /\
  (JoinRnode (contractBackend candidate) (200000 * 10 ^ 18)).2 = None.
Proof.
  split; [reflexivity|].
  destruct (proj2 (FundForRNode_changes_only_when_sent 200000 (10 ^ 18)
                     candidate candidateSent None eq_refl))
    as [Heq | (_ & H0 & Hj & _)]; [discriminate Heq | exact (conj H0 Hj)].
Defined.

(** Two calls, the watcher of the transaction returns, one more call: two
    transactions for one watcher return. *)
Lemma funding_one_watcher_at_a_time_witness :
  exists ac',
    fundRun 200000 (10 ^ 18) [callFund; callFund; watcherDone 77%N; callFund]
            candidate = Ret ac' /\
    flagMatchesWatcher ac' /\
    length (joinTxs ac') = 2%nat.
Proof.
  eexists.
  assert (Hr : fundRun 200000 (10 ^ 18)
                 [callFund; callFund; watcherDone 77%N; callFund] candidate
               = Ret _) by (vm_compute; reflexivity).
  split; [exact Hr|].
  split; [|reflexivity].
  refine (proj1 (funding_one_watcher_at_a_time 200000 (10 ^ 18) _ candidate _
                   _ Hr)).
  left. split; reflexivity.
Defined.

(** The node pays, the watcher returns, the node pays again. *)
Lemma FundForRNode_sends_again_witness :
  exists ac2,
    Admission.FundForRNode 200000 (10 ^ 18) (waitForTxDone 77%N candidateSent)
      = Ret (None, ac2) /\
    sendingFund ac2 = 1 /\
    length (joinTxs ac2) = (length (joinTxs candidate) + 2)%nat.
Proof.
  apply (FundForRNode_sends_again_after_watcher 200000 (10 ^ 18) candidate
           candidateSent None 77%N); [reflexivity | reflexivity | discriminate].
Defined.

End FundingFacts.

(** ** The campaign *)
Module CampaignFacts.
Import Admission Campaigning.

Section Facts.
Variable ProofWork : Type.
Variable newWork : Z -> Z -> Address -> option N -> hashFunc -> ProofWork.
Variable workError : ProofWork -> option campaignError.
Variable workResult : ProofWork -> Result.
Variable CampaignVersion : Z.

(** X25: Campaign reports two errors only, and changes nothing when it does: the
    terms are out of [1, 10], which is checked first and also while a
    campaign runs; or no campaign runs and the node is not known to be an
    RNode, which is also what a failure to bind the RNode contract shows up
    as. *)
Theorem Campaign_errors (terms : Z) (ac ac' : Controller ProofWork)
    (e : campaignError) :
  Campaign newWork terms ac = Done (Some e, ac') <->
  ac' = ac /\
  ((e = fundError errTermOutOfRange /\ (terms < 1 \/ 10 < terms)) \/
   (e = fundError errNotRNode /\ 1 <= terms <= 10 /\ status ac = AcIdle /\
    (IsRNode ac).1 = false)).
Proof.
  unfold Campaign, maxNumOfCampaignTerms, minNumOfCampaignTerms.
  destruct (Z.ltb_spec 10 terms) as [Hhi | Hhi]; cbn [orb].
  { split.
    - intros H. inversion H; subst. split; [reflexivity|]. left. split; [reflexivity | lia].
    - intros (-> & [(-> & _) | (_ & Hr & _)]); [reflexivity | lia]. }
  destruct (Z.ltb_spec terms 1) as [Hlo | Hlo].
  { split.
    - intros H. inversion H; subst. split; [reflexivity|]. left. split; [reflexivity | lia].
    - intros (-> & [(-> & _) | (_ & Hr & _)]); [reflexivity | lia]. }
  destruct (status ac) eqn:Hst.
  2:{ split; [discriminate|].
      intros (_ & [(_ & Hr) | (_ & _ & Hs & _)]); [lia | discriminate]. }
  destruct (IsRNode ac) as [isR e0]. cbn [fst]. destruct isR; cbn [negb].
  - split.
    + intros H. destruct (buildCpuProofWork newWork ac); try discriminate.
      destruct (buildMemoryProofWork newWork ac); discriminate.
    + intros (_ & [(_ & Hr) | (_ & _ & _ & Hx)]); [lia | discriminate].
  - split.
    + intros H. inversion H; subst. split; [reflexivity|]. right.
      repeat split; auto; lia.
    + intros (-> & [(_ & Hr) | (-> & _)]); [lia | reflexivity].
Qed.

(** IsRNode never reports an RNode when the RNode contract cannot be bound,
    and drops the error of the contract call. *)
Lemma IsRNode_answers (ac : Controller ProofWork) :
  (NewRnode (contractBackend (funding ac)) <> None ->
   (IsRNode ac).1 = false /\ (IsRNode ac).2 <> None) /\
  (NewRnode (contractBackend (funding ac)) = None ->
   IsRNode ac
   = ((IsRnode (contractBackend (funding ac)) (address (funding ac))).1, None)).
Proof.
  unfold IsRNode. destruct (NewRnode (contractBackend (funding ac))).
  - split; [|discriminate]. intros _. split; [reflexivity | discriminate].
  - split; [congruence | reflexivity].
Qed.


(** X27: Once both provers are done, waitSendCampaignMsg always leaves the status
    idle and the done channel closed.  It starts sendCampaignResult exactly
    when neither work reports an error; otherwise it records the error of a
    work, the first one in iteration order that has one, and starts
    nothing. *)
Theorem waitSendCampaignMsg_ends_idle (terms : Z) (first : workName)
    (ac : Controller ProofWork) (cw mw : ProofWork) :
  cpuWork ac = Some cw -> memoryWork ac = Some mw ->
  exists ac',
    waitSendCampaignMsg workError terms first ac = Done ac' /\
    status ac' = AcIdle /\ doneClosed ac' = true /\
    claims ac' = claims ac /\
    cpuWork ac' = cpuWork ac /\ memoryWork ac' = memoryWork ac /\
    match workError cw, workError mw with
    | None, None =>
        started ac' = started ac ++ [goSendCampaignResult terms] /\
        err ac' = err ac
    | Some e, None | None, Some e =>
        started ac' = started ac /\ err ac' = Some e
    | Some e1, Some e2 =>
        started ac' = started ac /\
        err ac' = Some (match first with Cpu => e1 | Memory => e2 end)
    end.
Proof.
  intros Hc Hm. unfold waitSendCampaignMsg, workOf, other.
  destruct first; rewrite Hc, Hm;
    destruct (workError cw) as [e1|], (workError mw) as [e2|];
    eexists; (split; [reflexivity|]); cbn; rewrite ?app_nil_r; auto 10.
Qed.

(** X28: sendCampaignResult sends at most one claim, and only to a backend that
    is neither nil nor the simulated one; the claim carries the terms, the
    nonce and block number of the cpu result, those of the memory result,
    and the campaign version.  When it sends none it records an error and
    changes nothing else. *)
Theorem sendCampaignResult_claims (terms : Z) (ac ac' : Controller ProofWork) :
  sendCampaignResult workResult CampaignVersion terms ac = Done ac' ->
  (exists cw mw,
     kind ac = otherBackend /\
     cpuWork ac = Some cw /\ memoryWork ac = Some mw /\
     claims ac' = claims ac ++
       [mkClaim terms (Nonce (workResult cw)) (BlockNumber (workResult cw))
                (Nonce (workResult mw)) (BlockNumber (workResult mw))
                CampaignVersion] /\
     err ac' = err ac /\ status ac' = status ac) \/
  (claims ac' = claims ac /\ err ac' <> None /\ status ac' = status ac /\
   started ac' = started ac /\
   (kind ac <> otherBackend -> err ac' = Some errBackendIsNil)).
Proof.
  unfold sendCampaignResult. intros H.
  destruct (kind ac) eqn:Hk.
  1,2: inversion H; subst; right; cbn; rewrite app_nil_r;
       repeat split; auto; discriminate.
  destruct (key (funding ac)); [|discriminate].
  destruct (NewCampaign (contracts ac)).
  { inversion H; subst; right; cbn; rewrite app_nil_r;
      repeat split; auto; try discriminate. intros Hx. contradiction. }
  destruct (cpuWork ac) as [cw|]; [|discriminate].
  destruct (memoryWork ac) as [mw|]; [|discriminate].
  destruct (ClaimCampaign (contracts ac) _) eqn:Hcl.
  - inversion H; subst; right; cbn; rewrite app_nil_r;
      repeat split; auto; try discriminate. intros Hx. contradiction.
  - inversion H; subst. left. exists cw, mw. cbn. auto 10.
Qed.

(** X29: A campaign from start to end.  While the campaign that Campaign has
    started runs, every further call with terms in range returns nil and
    changes nothing.  Both works are there, so waitSendCampaignMsg and
    GetResult do not meet a nil work; and when waitSendCampaignMsg is done,
    GetStatus reports the idle status, so a new campaign can start. *)
Theorem Campaign_runs_once (terms : Z) (first : workName)
    (ac ac1 : Controller ProofWork) :
  status ac = AcIdle ->
  Campaign newWork terms ac = Done (None, ac1) ->
  (forall t, 1 <= t <= 10 -> Campaign newWork t ac1 = Done (None, ac1)) /\
  exists ac2 cw mw,
    waitSendCampaignMsg workError terms first ac1 = Done ac2 /\
    (GetStatus ac2).1 = AcIdle /\
    GetResult workResult ac1 = Done (workResult cw, workResult mw) /\
    GetResult workResult ac2 = Done (workResult cw, workResult mw).
Proof.
  intros Hst. unfold Campaign at 1.
  unfold maxNumOfCampaignTerms, minNumOfCampaignTerms.
  destruct (Z.ltb_spec 10 terms); cbn [orb]; [discriminate|].
  destruct (Z.ltb_spec terms 1); [discriminate|].
  rewrite Hst. destruct (IsRNode ac) as [isR e0].
  destruct isR; cbn [negb]; [|discriminate].
  destruct (buildCpuProofWork newWork ac) as [cw| |]; try discriminate.
  destruct (buildMemoryProofWork newWork ac) as [mw| |]; try discriminate.
  intros Hc. inversion Hc; subst ac1. clear Hc. split.
  - intros t Ht. unfold Campaign, maxNumOfCampaignTerms, minNumOfCampaignTerms.
    destruct (Z.ltb_spec 10 t); [lia|]. destruct (Z.ltb_spec t 1); [lia|].
    reflexivity.
  - match goal with |- context [waitSendCampaignMsg _ _ _ ?x] => set (ac1 := x) end.
    assert (Hw : exists ac2,
               waitSendCampaignMsg workError terms first ac1 = Done ac2 /\
               status ac2 = AcIdle /\
               cpuWork ac2 = Some cw /\ memoryWork ac2 = Some mw).
    { unfold waitSendCampaignMsg, ac1. destruct first; cbn;
        destruct (workError cw), (workError mw);
        eexists; (split; [reflexivity|]); cbn; auto. }
    destruct Hw as (ac2 & Hw & Hs & Hc2 & Hm2). exists ac2, cw, mw.
    unfold GetResult, GetStatus. rewrite Hc2, Hm2. cbn. auto.
Qed.

End Facts.

(** *** At concrete inputs *)
Import Scenes.


(** Both works done, the memory work with an error. *)
Lemma waitSendCampaignMsg_ends_idle_witness :
  exists ac',
    waitSendCampaignMsg workError 3 Cpu (campaigning (Some errBackendIsNil))
      = Done ac' /\
    status ac' = AcIdle /\ doneClosed ac' = true /\
    started ac' = started (campaigning (Some errBackendIsNil)) /\
    err ac' = Some errBackendIsNil.
Proof.
  destruct (waitSendCampaignMsg_ends_idle Work workError 3 Cpu
              (campaigning (Some errBackendIsNil)) _ _ eq_refl eq_refl)
    as (ac' & Hr & Hs & Hd & _ & _ & _ & Hg & He).
  exists ac'. auto.
Defined.

(** Both works done without error: the claim goes out. *)
Lemma sendCampaignResult_claims_witness :
  exists ac',
    sendCampaignResult workResult 1 3 (campaigning None) = Done ac' /\
    claims ac' = [mkClaim 3 5 7 6 7 1].
Proof.
  eexists.
  assert (Hr : sendCampaignResult workResult 1 3 (campaigning None) = Done _)
    by reflexivity.
  split; [exact Hr|].
  destruct (sendCampaignResult_claims Work workResult 1 3 (campaigning None)
              _ Hr) as [(cw & mw & _ & Hc & Hm & Hcl & _) | (Hno & _)].
  - reflexivity.
  - reflexivity.
Defined.

(** The campaign of three terms from start to end, with a second call of
    five terms while it runs. *)
Lemma Campaign_runs_once_witness :
  Campaign newWork 3 rnode = Done (None, campaigning None) /\
  Campaign newWork 5 (campaigning None) = Done (None, campaigning None) /\
  exists ac2 cw mw,
    waitSendCampaignMsg workError 3 Memory (campaigning None) = Done ac2 /\
    (GetStatus ac2).1 = AcIdle /\
    GetResult workResult (campaigning None)
      = Done (workResult cw, workResult mw) /\
    GetResult workResult ac2 = Done (workResult cw, workResult mw).
Proof.
  split; [reflexivity|].
  destruct (Campaign_runs_once Work newWork workError workResult 3 Memory
              rnode (campaigning None) eq_refl eq_refl) as [Hagain Hend].
  split; [apply Hagain; lia | exact Hend].
Defined.

End CampaignFacts.
